(** * A shallow embedding of the MongoDB migration workers

    The development follows the Python sources of [mongo_migration]:
    [workers/collection_worker.py] (bulk loader), [workers/cdc_worker.py]
    (polling change capture and delete reconciliation),
    [workers/change_stream_worker.py] (streaming change capture) and
    [verify.py] (verifier).

    Python exceptions are an explicit [result] type, files on disk are an
    explicit finite map from paths to contents, and MongoDB collections are
    finite maps from [_id] to the remaining fields of the document. *)

From Stdlib Require Import Ascii.
From stdpp Require Import gmap strings list sorting pretty.

Local Open Scope Z_scope.
Local Open Scope string_scope.

(** ** Exceptions as values *)

Inductive exn :=
| JSONDecodeError
| AttributeError
| TypeError
| KeyError
| InvalidId
| PyMongoError
| OtherError.

Inductive result (A : Type) :=
| Ok (a : A)
| Raise (e : exn).
Arguments Ok {A} a.
Arguments Raise {A} e.

Definition rbind {A B} (m : result A) (k : A → result B) : result B :=
  match m with
  | Ok a => k a
  | Raise e => Raise e
  end.

Global Instance result_ret : MRet result := λ A a, Ok a.
Global Instance result_bind : MBind result := λ A B k m, rbind m k.

Global Instance exn_eq_dec : EqDecision exn.
Proof. solve_decision. Defined.

(** ** Python values

    The values that occur in documents and in checkpoint dictionaries:
    [None], integers, strings, ObjectIds (a 96-bit number) and datetimes.
    A resume token, an opaque dictionary [{"_data": s}], is kept as the
    string [s].  A [datetime] is its
    wall-clock reading in microseconds together with the UTC offset of an
    aware value ([None] for a naive one). *)

Record datetime := { wall : Z; utcoffset : option Z }.

Inductive value :=
| VNone
| VInt (z : Z)
| VStr (s : string)
| VOid (o : N)
| VDate (d : datetime).

Global Instance datetime_eq_dec : EqDecision datetime.
Proof. solve_decision. Defined.
Global Instance value_eq_dec : EqDecision value.
Proof. solve_decision. Defined.

(** A document as [find] returns it: the mandatory [_id] (an ObjectId, which
    the resume path [ObjectId(last_id)] presupposes) and the other fields. *)
Record document := { _id : N; fields : gmap string value }.

Global Instance document_eq_dec : EqDecision document.
Proof. solve_decision. Defined.

(** The top-level value of a JSON text: a dictionary, or anything else. *)
Inductive json :=
| JObject (m : gmap string value)
| JOther.

(** What the Python standard library contributes: [datetime.fromisoformat]
    ([None] is [ValueError]), [str] and [isoformat] of a datetime,
    [json.dumps(doc, sort_keys=True, cls=MongoJSONEncoder)] ([None] is
    [TypeError]), [hashlib.md5(...).hexdigest()], and the number of chunks
    [json.dump] writes before the last one. *)
Class Runtime := {
  fromisoformat : string → option datetime;
  datetime_str : datetime → string;
  isoformat : datetime → string;
  dumps_sorted : document → option string;
  md5_hexdigest : string → string;
  iterencode_chunks : json → nat;
}.

(** [s.replace("Z", "+00:00")] *)
Fixpoint replace_Z (s : string) : string :=
  match s with
  | EmptyString => EmptyString
  | String c r =>
      if Ascii.eqb c "Z"%char then "+00:00" ++ replace_Z r
      else String c (replace_Z r)
  end.

(** [str(ObjectId)]: 24 lowercase hexadecimal digits. *)
Definition hex_digit (n : N) : ascii :=
  match n with
  | 0 => "0" | 1 => "1" | 2 => "2" | 3 => "3" | 4 => "4" | 5 => "5"
  | 6 => "6" | 7 => "7" | 8 => "8" | 9 => "9" | 10 => "a" | 11 => "b"
  | 12 => "c" | 13 => "d" | 14 => "e" | _ => "f"
  end%N%char.

Fixpoint hex_of (digits : nat) (n : N) (acc : string) : string :=
  match digits with
  | O => acc
  | S d => hex_of d (n / 16)%N (String (hex_digit (n mod 16)%N) acc)
  end.

Definition oid_str (o : N) : string := hex_of 24 o "".

Definition hex_value (c : ascii) : option N :=
  let n := N_of_ascii c in
  if ((48 <=? n) && (n <=? 57))%N then Some (n - 48)%N
  else if ((97 <=? n) && (n <=? 102))%N then Some (n - 87)%N
  else if ((65 <=? n) && (n <=? 70))%N then Some (n - 55)%N
  else None.

Fixpoint hex_parse (s : string) (acc : N) : option N :=
  match s with
  | EmptyString => Some acc
  | String c r =>
      match hex_value c with
      | Some v => hex_parse r (16 * acc + v)%N
      | None => None
      end
  end.

(** [ObjectId(x)] for a value read back from a checkpoint. *)
Definition ObjectId (x : value) : result N :=
  match x with
  | VStr s =>
      if (String.length s =? 24)%nat then
        match hex_parse s 0 with
        | Some n => Ok n
        | None => Raise InvalidId
        end
      else Raise InvalidId
  | VOid o => Ok o
  | _ => Raise TypeError
  end.

(** Truth value of a Python object, as [if x:] tests it. *)
Definition truthy (x : value) : bool :=
  match x with
  | VNone => false
  | VInt z => negb (Z.eqb z 0)
  | VStr s => negb (String.eqb s "")
  | VOid _ => true
  | VDate _ => true
  end.

Section Python.
Context `{Runtime}.

(** [str(x)] *)
Definition py_str (x : value) : string :=
  match x with
  | VNone => "None"
  | VInt z => pretty z
  | VStr s => s
  | VOid o => oid_str o
  | VDate d => datetime_str d
  end.

(** [a > b] on datetimes: naive against aware raises [TypeError]. *)
Definition datetime_gt (a b : datetime) : result bool :=
  match utcoffset a, utcoffset b with
  | None, None => Ok (Z.ltb (wall b) (wall a))
  | Some oa, Some ob => Ok (Z.ltb (wall b - ob) (wall a - oa))
  | _, _ => Raise TypeError
  end.

(** [a > b] on the values of the model. *)
Definition py_gt (a b : value) : result bool :=
  match a, b with
  | VInt x, VInt y => Ok (Z.ltb y x)
  | VStr x, VStr y => Ok (String.ltb y x)
  | VOid x, VOid y => Ok (N.ltb y x)
  | VDate x, VDate y => datetime_gt x y
  | _, _ => Raise TypeError
  end.

(** [MongoJSONEncoder.default]: ObjectIds and datetimes become strings. *)
Definition encode (x : value) : value :=
  match x with
  | VOid o => VStr (oid_str o)
  | VDate d => VStr (isoformat d)
  | _ => x
  end.

(** [hashlib.md5(json.dumps(doc, sort_keys=True,
    cls=MongoJSONEncoder).encode()).hexdigest()] *)
Definition doc_hash (d : document) : result string :=
  match dumps_sorted d with
  | Some s => Ok (md5_hexdigest s)
  | None => Raise TypeError
  end.
End Python.

(** ** MongoDB collections

    A collection maps each [_id] to the other fields of its document, so the
    uniqueness of [_id] that the server enforces holds by construction. *)
Module Mongo.
Abbreviation collection := (gmap N (gmap string value)).

Definition to_document (kv : N * gmap string value) : document :=
  {| _id := kv.1; fields := kv.2 |}.

(** [coll.find()]: every document, in the order the server returns them. *)
Definition find (c : collection) : list document :=
  to_document <$> map_to_list c.

(** [coll.find_one({"_id": k})] *)
Definition find_one (c : collection) (k : N) : option document :=
  (λ f, {| _id := k; fields := f |}) <$> c !! k.

(** [coll.count_documents({})] *)
Definition count_documents (c : collection) : nat := size c.

(** [ReplaceOne({"_id": doc["_id"]}, doc, upsert=...)] and
    [DeleteOne({"_id": k})]: every call site builds the filter from the
    [_id] of the document it writes. *)
Inductive write_op :=
| ReplaceOne (doc : document) (upsert : bool)
| DeleteOne (k : N).

Definition apply_op (c : collection) (op : write_op) : collection :=
  match op with
  | ReplaceOne doc upsert =>
      match c !! _id doc with
      | Some _ => <[_id doc := fields doc]> c
      | None => if upsert then <[_id doc := fields doc]> c else c
      end
  | DeleteOne k => delete k c
  end.

(** [coll.replace_one({"_id": doc["_id"]}, doc, upsert=True)] *)
Definition replace_one (c : collection) (doc : document) (upsert : bool)
  : collection := apply_op c (ReplaceOne doc upsert).

(** [coll.delete_one({"_id": k})] *)
Definition delete_one (c : collection) (k : N) : collection :=
  apply_op c (DeleteOne k).

(** [coll.bulk_write(ops)] *)
Definition bulk_write (c : collection) (ops : list write_op) : collection :=
  foldl apply_op c ops.

(** The two queries of the bulk loader: [{}] and [{"_id": {"$gt": k}}]. *)
Inductive query :=
| QAll
| QIdGt (k : N).

Definition matches (q : query) (d : document) : bool :=
  match q with
  | QAll => true
  | QIdGt k => N.ltb k (_id d)
  end.

Definition id_le (a b : document) : Prop := (_id a ≤ _id b)%N.

Global Instance id_le_dec a b : Decision (id_le a b).
Proof. unfold id_le. apply _. Defined.

(** [coll.find(q).sort("_id", 1).limit(n)] *)
Definition find_sorted (c : collection) (q : query) (n : nat)
  : list document :=
  take n (merge_sort id_le (List.filter (matches q) (find c))).

(** [coll.find(q)]: the documents a query selects, before sorting. *)
Definition find_query (c : collection) (q : query) : list document :=
  List.filter (matches q) (find c).

(** A collection behind a connection: when the connection is failing every
    call raises. *)
Inductive remote :=
| Up (c : collection)
| Failing (e : exn).

Definition remote_find_one (r : remote) (k : N) : result (option document) :=
  match r with
  | Up c => Ok (find_one c k)
  | Failing e => Raise e
  end.

Definition remote_write (r : remote) (op : write_op) : result remote :=
  match r with
  | Up c => Ok (Up (apply_op c op))
  | Failing e => Raise e
  end.
End Mongo.

(** ** Files of the progress directory *)
Module Files.
(** The text of a file, up to what [json.load] makes of it: text it
    rejects, the first [k] chunks of the serialisation of [j] (rejected as
    well, the value is not closed yet), or the whole serialisation of
    [j]. *)
Inductive file :=
| Garbage (text : string)
| Prefix (j : json) (k : nat)
| Text (j : json).

Abbreviation fs := (gmap string file).

(** [json.load(f)] *)
Definition json_load (f : file) : result json :=
  match f with
  | Text j => Ok j
  | Garbage _ | Prefix _ _ => Raise JSONDecodeError
  end.

(** [data.get(key)] and [data.get(key, dflt)]; a top-level value that is
    no dictionary has no [get]. *)
Definition get_default (j : json) (key : string) (dflt : value)
  : result value :=
  match j with
  | JObject m => Ok (default dflt (m !! key))
  | JOther => Raise AttributeError
  end.

Definition get (j : json) (key : string) : result value :=
  get_default j key VNone.

(** [os.path.join(dir, name)] for a relative [name] *)
Definition path_join (dir name : string) : string := dir ++ "/" ++ name.

(** The writes a save performs, one system call each. *)
Inductive fs_op :=
| OpenW (p : string)
| WritePart (p : string) (j : json)
| WriteLast (p : string) (j : json)
| Replace (src dst : string).

Definition written (σ : fs) (p : string) : nat :=
  match σ !! p with
  | Some (Prefix _ k) => k
  | _ => O
  end.

Definition step (σ : fs) (op : fs_op) : fs :=
  match op with
  | OpenW p => <[p := Garbage ""]> σ
  | WritePart p j => <[p := Prefix j (S (written σ p))]> σ
  | WriteLast p j => <[p := Text j]> σ
  | Replace src dst =>
      match σ !! src with
      | Some f => <[dst := f]> (delete src σ)
      | None => σ
      end
  end.

Definition run (σ : fs) (ops : list fs_op) : fs := foldl step σ ops.

(** [json.dump(data, f, cls=MongoJSONEncoder)]: one write per chunk. *)
Definition dump `{Runtime} (p : string) (j : json) : list fs_op :=
  replicate (iterencode_chunks j) (WritePart p j) ++ [WriteLast p j].

(** The dictionary [json.dump] serialises, after [MongoJSONEncoder]. *)
Definition jobject `{Runtime} (items : list (string * value)) : json :=
  JObject (encode <$> (list_to_map items : gmap string value)).
End Files.

(** ** Configuration ([config/config.py]) *)
Definition BATCH_SIZE : nat := 1000.
Definition PROGRESS_DIR : string := "progress".
Definition RETRY_LIMIT : nat := 5.
Definition RETRY_DELAY : nat := 2.

(** ** The bulk loader ([workers/collection_worker.py]) *)
Module CollectionWorker.
Import Mongo Files.

Section Worker.
Context `{Runtime}.

Definition checkpoint_path (collection_name : string) : string :=
  path_join PROGRESS_DIR (collection_name ++ ".json").

(** [load_checkpoint]: only [json.JSONDecodeError] is caught. *)
Definition load_checkpoint (σ : fs) (collection_name : string)
  : result value :=
  let path := checkpoint_path collection_name in
  match σ !! path with
  | Some f =>
      match json_load f with
      | Ok data => get data "last_id"
      | Raise e =>
          if decide (e = JSONDecodeError) then Ok VNone else Raise e
      end
  | None => Ok VNone
  end.

(** The writes of [save_checkpoint]; [now] is the reading of [time.time()]. *)
Definition save_checkpoint_ops (collection_name : string) (last_id : N)
    (count : nat) (now : value) : list fs_op :=
  let path := checkpoint_path collection_name in
  let temp_path := path ++ ".tmp" in
  let data :=
    jobject [("last_id", VStr (py_str (VOid last_id)));
             ("count", VInt (Z.of_nat count));
             ("timestamp", now)] in
  [OpenW temp_path] ++ dump temp_path data ++ [Replace temp_path path].

Definition save_checkpoint (σ : fs) (collection_name : string) (last_id : N)
    (count : nat) (now : value) : fs :=
  run σ (save_checkpoint_ops collection_name last_id count now).

(** [verify_batch]: the list of verification errors, by document id.  The
    errors only go to a log, and the caller ignores the verdict; an
    exception of the hashing escapes. *)
Fixpoint verification_errors (src_docs : list document) (dest : collection)
  : result (list N) :=
  match src_docs with
  | [] => Ok []
  | src_doc :: rest =>
      match find_one dest (_id src_doc) with
      | None =>
          errs ← verification_errors rest dest; Ok (_id src_doc :: errs)
      | Some dest_doc =>
          src_hash ← doc_hash src_doc;
          dest_hash ← doc_hash dest_doc;
          errs ← verification_errors rest dest;
          if decide (src_hash ≠ dest_hash) then Ok (_id src_doc :: errs)
          else Ok errs
      end
  end.

Definition verify_batch (src_docs : list document) (dest : collection)
  : result bool :=
  errs ← verification_errors src_docs dest;
  Ok (bool_decide (errs = [])).

(** What one run leaves behind: the files, the target collection, the
    number of documents migrated, and the checkpoints saved on the way
    (batch, [last_id], [count]). *)
Record run_state := {
  files : fs;
  dest : collection;
  total_migrated : nat;
  saves : list (list document * N * nat);
}.

(** The [while True] loop of [migrate_collection]; [None] when the fuel
    runs out.  [clock i] is the time at the [i]-th save. *)
Fixpoint migrate_loop (fuel : nat) (batch : nat) (clock : nat → value)
    (src : collection) (collection_name : string) (query : query)
    (st : run_state) : option (result run_state) :=
  match fuel with
  | O => None
  | S fuel' =>
      match find_sorted src query batch with
      | [] => Some (Ok st)
      | first :: others =>
          let docs := first :: others in
          let operations := (λ doc, ReplaceOne doc true) <$> docs in
          let dest' := bulk_write (dest st) operations in
          match verify_batch docs dest' with
          | Raise e => Some (Raise e)
          | Ok _ =>
              let last_id := _id (List.last others first) in
              let total := (total_migrated st + length docs)%nat in
              let σ' :=
                save_checkpoint (files st) collection_name last_id total
                  (clock (length (saves st))) in
              migrate_loop fuel' batch clock src collection_name
                (QIdGt last_id)
                {| files := σ'; dest := dest'; total_migrated := total;
                   saves := saves st ++ [(docs, last_id, total)] |}
          end
      end
  end.

(** The resume query: [{"_id": {"$gt": ObjectId(last_id)}} if last_id else
    {}]. *)
Definition resume_query (last_id : value) : result query :=
  if truthy last_id then k ← ObjectId last_id; Ok (QIdGt k) else Ok QAll.

(** [migrate_collection], after the connections are open and the indexes
    copied (which touches neither documents nor checkpoints). *)
Definition migrate_collection (fuel : nat) (clock : nat → value)
    (src : collection) (target : collection) (σ : fs)
    (collection_name : string) : option (result run_state) :=
  match last_id ← load_checkpoint σ collection_name; resume_query last_id with
  | Raise e => Some (Raise e)
  | Ok query =>
      migrate_loop fuel BATCH_SIZE clock src collection_name query
        {| files := σ; dest := target; total_migrated := 0; saves := [] |}
  end.

End Worker.

(** What building the client and pinging the server does at one attempt. *)
Inductive attempt_outcome :=
| Connects
| ConnectionFailure
| OtherException (e : exn).

(** [get_mongo_client] (the same function in [cdc_worker.py]) over the
    attempts of [range(RETRY_LIMIT)]: the client, [None] when the loop falls
    through, or the exception; and the seconds slept on the way.
    [ConnectionFailure] is a [PyMongoError]. *)
Fixpoint get_mongo_client_from (attempts : list nat)
    (connect : nat → attempt_outcome) : result (option unit) * list nat :=
  match attempts with
  | [] => (Ok None, [])
  | attempt :: rest =>
      match connect attempt with
      | Connects => (Ok (Some tt), [])
      | ConnectionFailure =>
          if (attempt <? RETRY_LIMIT - 1)%nat then
            let '(outcome, sleeps) := get_mongo_client_from rest connect in
            (outcome, (RETRY_DELAY * (attempt + 1))%nat :: sleeps)
          else (Raise PyMongoError, [])
      | OtherException e => (Raise e, [])
      end
  end.

Definition get_mongo_client (connect : nat → attempt_outcome)
  : result (option unit) * list nat :=
  get_mongo_client_from (seq 0 RETRY_LIMIT) connect.
End CollectionWorker.

(** ** The polling change-capture worker ([workers/cdc_worker.py]) *)
Module CdcWorker.
Import Mongo Files.

Section Worker.
Context `{Runtime}.

Definition checkpoint_path (progress_dir collection_name : string) : string :=
  path_join progress_dir (collection_name ++ "_cdc.json").

(** [load_checkpoint]: the pair [(last_updated_at, last_operation_time)]. *)
Definition load_checkpoint (σ : fs) (collection_name progress_dir : string)
  : result (value * value) :=
  let path := checkpoint_path progress_dir collection_name in
  match σ !! path with
  | Some f =>
      match json_load f with
      | Ok data =>
          last_updated_at ← get data "last_updated_at";
          last_operation_time ← get data "last_operation_time";
          Ok (last_updated_at, last_operation_time)
      | Raise e =>
          if decide (e = JSONDecodeError) then Ok (VNone, VNone) else Raise e
      end
  | None => Ok (VNone, VNone)
  end.

(** [x + n] for an integer [n] *)
Definition py_add (x : value) (n : Z) : result value :=
  match x with
  | VInt a => Ok (VInt (a + n))
  | _ => Raise TypeError
  end.

(** The dictionary already on disk, as [save_checkpoint] reads it: any
    failure of the read leaves [{}]. *)
Definition existing_data (σ : fs) (path : string) : json :=
  match σ !! path with
  | Some f =>
      match json_load f with
      | Ok data => data
      | Raise _ => JObject ∅
      end
  | None => JObject ∅
  end.

(** The dictionary [save_checkpoint] is about to write; [now] is
    [datetime.now().isoformat()]. *)
Definition checkpoint_data (σ : fs) (path : string)
    (last_updated_at last_operation_time : value) (updates deletions : Z)
    (now : string) : result json :=
  let existing := existing_data σ path in
  old_updates ← get_default existing "updates" (VInt 0);
  new_updates ← py_add old_updates updates;
  old_deletions ← get_default existing "deletions" (VInt 0);
  new_deletions ← py_add old_deletions deletions;
  Ok (jobject [("last_updated_at", last_updated_at);
               ("last_operation_time", last_operation_time);
               ("timestamp", VStr now);
               ("updates", new_updates);
               ("deletions", new_deletions)]).

(** The writes of [save_checkpoint]; an exception before the file is opened
    is logged and nothing is written. *)
Definition save_checkpoint_ops (σ : fs) (collection_name : string)
    (last_updated_at last_operation_time : value) (updates deletions : Z)
    (progress_dir : string) (now : string) : list fs_op :=
  let path := checkpoint_path progress_dir collection_name in
  match checkpoint_data σ path last_updated_at last_operation_time
          updates deletions now with
  | Ok data =>
      let temp_path := path ++ ".tmp" in
      [OpenW temp_path] ++ dump temp_path data ++ [Replace temp_path path]
  | Raise _ => []
  end.

Definition save_checkpoint (σ : fs) (collection_name : string)
    (last_updated_at last_operation_time : value) (updates deletions : Z)
    (progress_dir : string) (now : string) : fs :=
  run σ (save_checkpoint_ops σ collection_name last_updated_at
           last_operation_time updates deletions progress_dir now).

(** [verify_doc] *)
Definition verify_doc (src_collection tgt_collection : remote) (doc_id : N)
  : bool :=
  let outcome :=
    src_doc ← remote_find_one src_collection doc_id;
    tgt_doc ← remote_find_one tgt_collection doc_id;
    match src_doc, tgt_doc with
    | None, None => Ok true
    | Some s, Some t =>
        src_hash ← doc_hash s;
        tgt_hash ← doc_hash t;
        Ok (bool_decide (src_hash = tgt_hash))
    | _, _ => Ok false
    end in
  match outcome with
  | Ok b => b
  | Raise _ => false
  end.

(** [handle_deletes]: the sample size, the staged deletes, and the whole
    function on live collections (the new target, the new files, the number
    of deletes). *)
Definition sample_size (src_collection tgt_collection : collection)
    (force_check : bool) : nat :=
  let src_count := count_documents src_collection in
  let tgt_count := count_documents tgt_collection in
  let target_exceeds := bool_decide (src_count < tgt_count)%nat in
  if force_check || target_exceeds then 1000%nat else 100%nat.

Definition delete_ops (src_collection : collection)
    (sample_docs : list document) : list write_op :=
  (λ doc, DeleteOne (_id doc)) <$>
    List.filter (λ doc, bool_decide (find_one src_collection (_id doc) = None))
      sample_docs.

Definition handle_deletes (src_collection tgt_collection : collection)
    (σ : fs) (collection_name : string) (last_operation_time : value)
    (force_check : bool) (now : string) : collection * fs * nat :=
  let sample_docs :=
    take (sample_size src_collection tgt_collection force_check)
      (find tgt_collection) in
  let ops := delete_ops src_collection sample_docs in
  match ops with
  | [] => (tgt_collection, σ, O)
  | _ =>
      let tgt' := bulk_write tgt_collection ops in
      let path := checkpoint_path PROGRESS_DIR collection_name in
      let last_updated_at :=
        match σ !! path with
        | Some f => data ← json_load f; get data "last_updated_at"
        | None => Ok VNone
        end in
      let σ' :=
        match last_updated_at with
        | Ok v =>
            save_checkpoint σ collection_name v last_operation_time 0
              (Z.of_nat (length ops)) PROGRESS_DIR now
        | Raise _ => σ
        end in
      (tgt', σ', length ops)
  end.

(** The decision taken for each fetched document in
    [cdc_migrate_collection]. *)
Definition parse_timestamp (x : value) : value :=
  match x with
  | VStr s =>
      match fromisoformat (replace_Z s) with
      | Some d => VDate d
      | None => VStr s
      end
  | _ => x
  end.

Definition isinstance_str (x : value) : bool :=
  match x with
  | VStr _ => true
  | _ => false
  end.

Definition source_newer (src_updated tgt_updated : value) : result bool :=
  let src_updated := parse_timestamp src_updated in
  let tgt_updated := parse_timestamp tgt_updated in
  if isinstance_str src_updated || isinstance_str tgt_updated then
    Ok (String.ltb (py_str tgt_updated) (py_str src_updated))
  else py_gt src_updated tgt_updated.

Definition update_needed (doc tgt_doc : document) : result bool :=
  match fields doc !! "updatedAt", fields tgt_doc !! "updatedAt" with
  | Some src_updated, Some tgt_updated => source_newer src_updated tgt_updated
  | _, _ => Ok true
  end.

Definition stage (force_refresh : bool) (tgt_collection : collection)
    (doc : document) : result (option write_op) :=
  match find_one tgt_collection (_id doc) with
  | None => Ok (Some (ReplaceOne doc true))
  | Some tgt_doc =>
      src_hash ← doc_hash doc;
      tgt_hash ← doc_hash tgt_doc;
      if decide (src_hash ≠ tgt_hash) then
        needed ← update_needed doc tgt_doc;
        if needed || force_refresh then Ok (Some (ReplaceOne doc true))
        else Ok None
      else Ok None
  end.

(** The [operations] list after the [for doc in docs] loop. *)
Fixpoint batch_operations (force_refresh : bool) (tgt_collection : collection)
    (docs : list document) : result (list write_op) :=
  match docs with
  | [] => Ok []
  | doc :: rest =>
      staged ← stage force_refresh tgt_collection doc;
      ops ← batch_operations force_refresh tgt_collection rest;
      Ok (from_option (λ op, [op]) [] staged ++ ops)%list
  end.

(** [check_document_differences], local to [cdc_migrate_collection]. *)
Definition check_document_differences (src_doc : document)
    (tgt_doc : option document) : result bool :=
  match tgt_doc with
  | None => Ok true
  | Some tgt_doc =>
      src_hash ← doc_hash src_doc;
      tgt_hash ← doc_hash tgt_doc;
      Ok (bool_decide (src_hash ≠ tgt_hash))
  end.

(** The [targeted_ops] of the force-refresh pass: a [ReplaceOne] without
    upsert for every target document whose source counterpart differs. *)
Fixpoint targeted_ops (src_collection : collection)
    (target_docs : list document) : result (list write_op) :=
  match target_docs with
  | [] => Ok []
  | tgt_doc :: rest =>
      match find_one src_collection (_id tgt_doc) with
      | Some src_doc =>
          differs ← check_document_differences src_doc (Some tgt_doc);
          ops ← targeted_ops src_collection rest;
          Ok (if differs : bool then ReplaceOne src_doc false :: ops else ops)
      | None => targeted_ops src_collection rest
      end
  end.

(** The force-refresh pass of [cdc_migrate_collection] on live collections:
    the first 500 target documents are compared with the source, the
    differing ones replaced in one bulk write, and their number added to
    the [updates] of the checkpoint (the watermarks are [None] in this
    mode). *)
Definition targeted_check (src_collection tgt_collection : collection)
    (σ : fs) (collection_name progress_dir now : string)
  : result (collection * fs * nat) :=
  let target_docs := take 500 (find tgt_collection) in
  ops ← targeted_ops src_collection target_docs;
  match ops with
  | [] => Ok (tgt_collection, σ, O)
  | _ =>
      Ok (bulk_write tgt_collection ops,
          save_checkpoint σ collection_name VNone VNone
            (Z.of_nat (length ops)) 0 progress_dir now,
          length ops)
  end.

End Worker.

(** The positions of the batch that [cdc_migrate_collection] verifies after
    writing: [range(sample_size)] mapped to [doc_index], under the guard
    [doc_index < len(docs)]. *)
Definition verification_indices (len_docs : nat) : list nat :=
  let sample_size := (10 `min` len_docs)%nat in
  List.filter (λ doc_index, (doc_index <? len_docs)%nat)
    ((λ i, if (1 <? sample_size)%nat then (i * (len_docs / sample_size))%nat
           else O) <$> seq 0 sample_size).

(** [cdc_worker_thread]: the [force_refresh] each cycle runs with, given
    whether each cycle returns ([true]) or raises ([false]); [first_cycle]
    is cleared only after a cycle that returns. *)
Fixpoint worker_cycles (first_cycle force_refresh : bool)
    (returns : list bool) : list bool :=
  match returns with
  | [] => []
  | returned :: rest =>
      let current_force_refresh := if first_cycle then true else force_refresh in
      current_force_refresh
        :: worker_cycles (if returned then false else first_cycle)
             force_refresh rest
  end.
End CdcWorker.

(** ** The streaming change-capture worker
    ([workers/change_stream_worker.py]) *)
Module ChangeStreamWorker.
Import Mongo Files.

(** A change event: [change.get("operationType")],
    [change.get("fullDocument")] and [change.get("documentKey")]. *)
Record change := {
  operationType : option string;
  fullDocument : option document;
  documentKey : option (gmap string value);
}.

(** What one turn of the [while] loop meets: the shutdown flag set at the
    loop test, [try_next()] returning [None], returning a change (after
    which [stream.resume_token] is [token]), or raising. *)
Inductive poll :=
| Shutdown
| Idle
| Event (c : change) (token : string)
| Fails (e : exn).

(** The calls worth observing: opening the change stream and sleeping. *)
Inductive effect :=
| Watch (resume_after : value)
| Sleep (milliseconds : nat).

Inductive exit :=
| Polling
| Stopped
| Returned.

Record watcher := {
  tgt : remote;
  files : fs;
  processed : nat;
  errors : nat;
  stream_token : value;
  effects : list effect;
}.

Section Worker.
Context `{Runtime}.

Definition resume_token_path (progress_dir collection_name : string)
  : string := path_join progress_dir (collection_name ++ "_resume_token.json").

(** [load_resume_token] *)
Definition load_resume_token (σ : fs) (collection_name progress_dir : string)
  : result value :=
  let path := resume_token_path progress_dir collection_name in
  match σ !! path with
  | Some f =>
      match json_load f with
      | Ok data => get data "resume_token"
      | Raise e =>
          if decide (e = JSONDecodeError) then Ok VNone else Raise e
      end
  | None => Ok VNone
  end.

(** The writes of [save_resume_token]. *)
Definition save_resume_token_ops (collection_name : string)
    (resume_token : value) (progress_dir : string) (now : string)
  : list fs_op :=
  let path := resume_token_path progress_dir collection_name in
  let temp_path := path ++ ".tmp" in
  let data :=
    jobject [("resume_token", resume_token); ("timestamp", VStr now)] in
  [OpenW temp_path] ++ dump temp_path data ++ [Replace temp_path path].

Definition save_resume_token (σ : fs) (collection_name : string)
    (resume_token : value) (progress_dir : string) (now : string) : fs :=
  run σ (save_resume_token_ops collection_name resume_token progress_dir now).

(** A call that reaches the server and changes nothing. *)
Definition remote_noop (r : remote) : result remote :=
  match r with
  | Up c => Ok (Up c)
  | Failing e => Raise e
  end.

(** [process_change_event]: the target afterwards and the returned flag. *)
Definition process_change_event (c : change) (tgt_collection : remote)
  : remote * bool :=
  let attempt : result remote :=
    match operationType c with
    | Some operation_type =>
        if String.eqb operation_type "insert"
           || String.eqb operation_type "update"
           || String.eqb operation_type "replace" then
          match fullDocument c with
          | Some doc => remote_write tgt_collection (ReplaceOne doc true)
          | None => Ok tgt_collection
          end
        else if String.eqb operation_type "delete" then
          match documentKey c with
          | Some doc_key =>
              match doc_key !! "_id" with
              | Some (VOid k) => remote_write tgt_collection (DeleteOne k)
              | Some _ => remote_noop tgt_collection
              | None => Ok tgt_collection
              end
          | None => Ok tgt_collection
          end
        else Ok tgt_collection
    | None => Ok tgt_collection
    end in
  match attempt with
  | Ok tgt' => (tgt', true)
  | Raise _ => (tgt_collection, false)
  end.

(** The [while not shutdown_event.is_set()] loop over what the stream
    delivers; the turns that were never taken are returned. *)
Fixpoint watch_loop (script : list poll) (collection_name : string)
    (progress_dir now : string) (w : watcher) : watcher * exit * list poll :=
  match script with
  | [] => (w, Polling, [])
  | Shutdown :: rest => (w, Stopped, rest)
  | Idle :: rest =>
      watch_loop rest collection_name progress_dir now
        {| tgt := tgt w; files := files w; processed := processed w;
           errors := errors w; stream_token := stream_token w;
           effects := effects w ++ [Sleep 100] |}
  | Event c token :: rest =>
      let '(tgt', success) := process_change_event c (tgt w) in
      let processed' := if success then S (processed w) else processed w in
      let errors' := if success then errors w else S (errors w) in
      let files' :=
        if (processed' mod 100 =? 0)%nat then
          save_resume_token (files w) collection_name (VStr token)
            progress_dir now
        else files w in
      watch_loop rest collection_name progress_dir now
        {| tgt := tgt'; files := files'; processed := processed';
           errors := errors'; stream_token := VStr token;
           effects := effects w |}
  | Fails e :: rest =>
      let w' :=
        {| tgt := tgt w; files := files w; processed := processed w;
           errors := errors w; stream_token := stream_token w;
           effects := effects w ++ [Sleep 5000] |} in
      if decide (e = PyMongoError) then (w', Returned, rest)
      else watch_loop rest collection_name progress_dir now w'
  end.

(** [watch_collection_changes] on a source that supports change streams.
    Leaving the loop without the shutdown flag saves the final token; the
    function then returns. *)
Definition watch_collection_changes (script : list poll)
    (tgt_collection : remote) (σ : fs) (collection_name : string)
    (progress_dir now : string) : watcher * exit * list poll :=
  match load_resume_token σ collection_name progress_dir with
  | Raise _ =>
      ({| tgt := tgt_collection; files := σ; processed := 0; errors := 0;
          stream_token := VNone; effects := [] |}, Returned, script)
  | Ok resume_token =>
      let resume_after := if truthy resume_token then resume_token else VNone in
      let '(w, how, rest) :=
        watch_loop script collection_name progress_dir now
          {| tgt := tgt_collection; files := σ; processed := 0; errors := 0;
             stream_token := resume_after;
             effects := [Watch resume_after] |} in
      match how with
      | Returned =>
          ({| tgt := tgt w;
              files := save_resume_token (files w) collection_name
                         (stream_token w) progress_dir now;
              processed := processed w; errors := errors w;
              stream_token := stream_token w; effects := effects w |},
           Returned, rest)
      | _ => (w, how, rest)
      end
  end.

End Worker.

(** Ways of reading a script of turns: a turn after which the loop goes on,
    the number of changes delivered, and [stream.resume_token] after the
    script, given what it was before. *)
Definition goes_on (p : poll) : Prop := p ≠ Shutdown ∧ p ≠ Fails PyMongoError.

Definition events (script : list poll) : nat :=
  length (List.filter (λ p, match p with Event _ _ => true | _ => false end)
            script).

Definition last_token (script : list poll) (start : value) : value :=
  foldl (λ tok p, match p with Event _ t => VStr t | _ => tok end) start script.
End ChangeStreamWorker.

(** ** The verifier ([verify.py]) *)
Module Verify.

(** [index_information()]: index name to key pattern. *)
Abbreviation indexes := (gmap string (list (string * Z))).

(** [verify_indexes]; any exception gives [False]. *)
Definition verify_indexes (src_indexes tgt_indexes : result indexes) : bool :=
  match src_indexes, tgt_indexes with
  | Ok src, Ok tgt =>
      if decide (size src ≠ size tgt) then false
      else
        forallb
          (λ '(idx_name, src_keys),
             match tgt !! idx_name with
             | None => false
             | Some tgt_keys => bool_decide (src_keys = tgt_keys)
             end)
          (map_to_list src)
  | _, _ => false
  end.

(** [abs(src_count - tgt_count) <= max(5, src_count * 0.01)], with the
    product taken exactly instead of in floating point. *)
Definition count_match (src_count tgt_count : Z) : bool :=
  let diff := Z.abs (src_count - tgt_count) in
  Z.leb diff 5 || Z.leb (100 * diff) src_count.

(** [results["checks"]["count"]]: the counts and the verdict, or the error. *)
Inductive count_check :=
| Counted (source target : Z) (matched : bool)
| CountError.

(** The [results] dictionary: the entries of ["checks"] and ["status"], each
    present or not. *)
Record results := {
  check_exists : option bool;
  check_count : option count_check;
  check_indexes : option bool;
  check_documents : option bool;
  status : option string;
}.

(** [verify_collection].  [names] is [list_collection_names()] of the target
    database, [counts] the two [count_documents({})], and [docs_match] the
    verdict of [verify_document_sample], which computes a percentage in
    floating point and is taken as given. *)
Definition verify_collection (collection_name : string)
    (names : result (list string)) (counts : result (Z * Z))
    (src_indexes tgt_indexes : result indexes) (docs_match : bool)
  : results :=
  let absent := {|
    check_exists := Some false; check_count := None; check_indexes := None;
    check_documents := None; status := None |} in
  match names with
  | Raise _ => absent
  | Ok names =>
      let collection_exists := bool_decide (collection_name ∈ names) in
      if negb collection_exists then absent
      else
        let count :=
          match counts with
          | Ok (src_count, tgt_count) =>
              Counted src_count tgt_count (count_match src_count tgt_count)
          | Raise _ => CountError
          end in
        let indexes_match := verify_indexes src_indexes tgt_indexes in
        let all_checks :=
          [collection_exists;
           match count with Counted _ _ m => m | CountError => false end;
           indexes_match;
           docs_match] in
        {| check_exists := Some collection_exists;
           check_count := Some count;
           check_indexes := Some indexes_match;
           check_documents := Some docs_match;
           status := Some (if forallb id all_checks then "OK" else "FAILED") |}
  end.


Section Sample.
Context `{Runtime}.
Import Mongo.

(** [json.dumps(doc, sort_keys=True)] with the default encoder, as
    [verify_document_sample] calls it: the [_id] of a document is an
    ObjectId, which the default encoder cannot serialise. *)
Definition plain_dumps (d : document) : result string := Raise TypeError.

(** [range(0, min(total_count, sample_size * skip_interval),
    skip_interval)] *)
Definition sample_positions (total_count sample_size : nat) : list nat :=
  let skip_interval := (1 `max` (total_count / sample_size))%nat in
  let stop := (total_count `min` (sample_size * skip_interval))%nat in
  (λ i, (i * skip_interval)%nat)
    <$> seq 0 ((stop + skip_interval - 1) / skip_interval).

(** The sampling loop: [(mismatches, checked)] at the end, or the exception
    that leaves the loop. *)
Fixpoint sample_loop (positions : list nat) (src_coll tgt_coll : collection)
    (mismatches checked : nat) : result (nat * nat) :=
  match positions with
  | [] => Ok (mismatches, checked)
  | i :: rest =>
      match find src_coll !! i with
      | None => sample_loop rest src_coll tgt_coll mismatches checked
      | Some src_doc =>
          match find_one tgt_coll (_id src_doc) with
          | None =>
              sample_loop rest src_coll tgt_coll (S mismatches) checked
          | Some tgt_doc =>
              src_text ← plain_dumps src_doc;
              tgt_text ← plain_dumps tgt_doc;
              if decide (md5_hexdigest src_text ≠ md5_hexdigest tgt_text)
              then sample_loop rest src_coll tgt_coll (S mismatches)
                     (S checked)
              else sample_loop rest src_coll tgt_coll mismatches (S checked)
          end
      end
  end.

(** [verify_document_sample].  With [checked = 0] the percentage is the
    constant 0; otherwise [100 - mismatches / checked * 100 >= 99.0] is
    taken exactly.  A [sample_size] of 0 divides by zero; every exception
    gives [False]. *)
Definition verify_document_sample (src_coll tgt_coll : collection)
    (sample_size : nat) : bool :=
  let total_count := count_documents src_coll in
  if (total_count =? 0)%nat then true
  else if (sample_size =? 0)%nat then false
  else
    match sample_loop (sample_positions total_count sample_size)
            src_coll tgt_coll 0 0 with
    | Ok (mismatches, checked) =>
        if (checked =? 0)%nat then false
        else (100 * mismatches <=? checked)%nat
    | Raise _ => false
    end.
End Sample.

(** [main] after the connections are up: the names of the collections that
    failed ([KeyError] when a result has no status), and the exit code. *)
Fixpoint failed (rs : list results) : result (list results) :=
  match rs with
  | [] => Ok []
  | r :: rest =>
      match status r with
      | None => Raise KeyError
      | Some s =>
          others ← failed rest;
          Ok (if String.eqb s "OK" then others else r :: others)
      end
  end.

Definition main (rs : list results) : Z :=
  match failed rs with
  | Ok [] => 0
  | Ok (_ :: _) => 1
  | Raise _ => 1
  end.
End Verify.

(** ** The specification's reading of "strictly newer"

    Written after the specification, not after the code: a timestamp is
    read as a date when it is one or parses as one; two such readings are
    compared as dates; as soon as one of the two is text that fails to
    parse, the string forms are compared lexicographically. *)
Module Spec.
Section Lww.
Context `{Runtime}.






End Lww.

(** The totals a polling checkpoint file holds: what is under [key] when
    the file is a dictionary with an integer there, zero otherwise. *)
Definition persisted_total (σ : Files.fs) (path key : string) : Z :=
  match σ !! path with
  | Some (Files.Text (JObject m)) =>
      match m !! key with
      | Some (VInt z) => z
      | _ => 0
      end
  | _ => 0
  end.

(** A counter that is absent or an integer. *)
Definition counter_ok (m : gmap string value) (key : string) : Prop :=
  m !! key = None ∨ ∃ z, m !! key = Some (VInt z).

(** A polling checkpoint file that is absent, unparseable, or a dictionary
    whose counters are integers. *)
Definition counters_ok (σ : Files.fs) (path : string) : Prop :=
  match σ !! path with
  | None => True
  | Some (Files.Text (JObject m)) => counter_ok m "updates" ∧ counter_ok m "deletions"
  | Some (Files.Text JOther) => False
  | Some _ => True
  end.

(** A polling checkpoint file that [handle_deletes] can read: absent, or a
    dictionary whose counters are integers. *)
Definition checkpoint_readable (σ : Files.fs) (path : string) : Prop :=
  match σ !! path with
  | None => True
  | Some (Files.Text (JObject m)) => counter_ok m "updates" ∧ counter_ok m "deletions"
  | Some _ => False
  end.

(** An operation that writes the file [p] and touches no other. *)
Definition writes_only (p : string) (op : Files.fs_op) : Prop :=
  match op with
  | Files.OpenW q | Files.WritePart q _ | Files.WriteLast q _ => q = p
  | Files.Replace _ _ => False
  end.

(** Write-to-temporary-then-rename: every operation but the last writes the
    sibling [path.tmp]; the last renames it over [path]. *)
Definition temp_then_rename (path : string) (ops : list Files.fs_op) : Prop :=
  ∃ front : list Files.fs_op,
    ops = (front ++ [Files.Replace (path ++ ".tmp") path])%list
    ∧ Forall (writes_only (path ++ ".tmp")) front.

(** At every instant of the save, also when it is cut short, [path] holds
    what it held before or the whole new state. *)
Definition never_partial (σ : Files.fs) (path : string)
    (ops : list Files.fs_op) (new : json) : Prop :=
  ∀ n, Files.run σ (take n ops) !! path = σ !! path
       ∨ Files.run σ (take n ops) !! path = Some (Files.Text new).
End Spec.

(** ** Concrete data for the examples *)
Module Examples.
Import Mongo Files.

Definition show (x : value) : string :=
  match x with
  | VNone => "null"
  | VInt z => pretty z
  | VStr s => s
  | VOid o => oid_str o
  | VDate d => pretty (wall d)
  end.

Definition jan1 : datetime := {| wall := 1704067200000000; utcoffset := Some 0 |}.
Definition jan2 : datetime := {| wall := 1704153600000000; utcoffset := Some 0 |}.

(** A runtime that parses the two timestamps of the examples, prints a
    datetime as its clock reading, serialises a document field by field, and
    hashes a text to itself. *)
Definition example_runtime : Runtime := {|
  fromisoformat s :=
    if String.eqb s "2024-01-01T00:00:00+00:00" then Some jan1
    else if String.eqb s "2024-01-02T00:00:00+00:00" then Some jan2
    else None;
  datetime_str d := pretty (wall d);
  isoformat d := pretty (wall d);
  dumps_sorted d :=
    Some (oid_str (_id d) ++
          String.concat "," ((λ kv, kv.1 ++ ":" ++ show kv.2) <$> map_to_list (fields d)));
  md5_hexdigest s := s;
  iterencode_chunks j := 2%nat;
|}.

Definition doc (k : N) (v : string) : document :=
  {| _id := k; fields := {["v" := VStr v]} |}.

Definition stamped (k : N) (updated_at v : string) : document :=
  {| _id := k; fields := {["updatedAt" := VStr updated_at; "v" := VStr v]} |}.

Definition collection_of (docs : list document) : collection :=
  list_to_map ((λ d, (_id d, fields d)) <$> docs).

Definition ids_1_to_10 : list N := [1; 2; 3; 4; 5; 6; 7; 8; 9; 10]%N.

(** Scenario 2 of the specification: ten source documents, the first six
    already copied, and a bulk checkpoint that says so. *)
Definition source10 : collection := collection_of ((λ k, doc k "a") <$> ids_1_to_10).
Definition target6 : collection := collection_of ((λ k, doc k "a") <$> take 6 ids_1_to_10).
Definition checkpoint6 : fs :=
  {[ CollectionWorker.checkpoint_path "X" :=
       Text (JObject (list_to_map [("last_id", VStr (oid_str 6));
                                   ("count", VInt 6);
                                   ("timestamp", VInt 0)])) ]}.

(** Scenario 4 of the specification and its mirror image: the same [_id]
    on both sides, different content, and an [updatedAt] on each. *)
Definition older : document := stamped 1 "2024-01-01T00:00:00Z" "old".
Definition newer : document := stamped 1 "2024-01-02T00:00:00Z" "new".

(** A polling checkpoint with two updates and one deletion on record. *)
Definition polled : fs :=
  {[ CdcWorker.checkpoint_path PROGRESS_DIR "X" :=
       Text (JObject (list_to_map [("last_updated_at", VNone);
                                   ("last_operation_time", VNone);
                                   ("timestamp", VStr "t0");
                                   ("updates", VInt 2);
                                   ("deletions", VInt 1)])) ]}.

Definition insert_of (d : document) (token : string) : ChangeStreamWorker.poll :=
  ChangeStreamWorker.Event
    {| ChangeStreamWorker.operationType := Some "insert";
       ChangeStreamWorker.fullDocument := Some d;
       ChangeStreamWorker.documentKey := Some {["_id" := VOid (_id d)]} |}
    token.
End Examples.

Section Theorems.
Context `{Runtime}.
Import Mongo Files.

Lemma rbind_ok {A B} (m : result A) (k : A → result B) a :
  m = Ok a → (m ≫= k) = k a.
Proof. by intros ->. Qed.

(** C10: [verify_doc] returns true when the document is absent from both
    collections, false when it exists on exactly one side, and otherwise
    true exactly when the two canonical MD5 hashes are equal; when a lookup
    or the hashing raises it returns false instead of raising. *)
Theorem verify_doc_verdict (src tgt : collection) (doc_id : N) :
  (find_one src doc_id = None → find_one tgt doc_id = None →
   CdcWorker.verify_doc (Up src) (Up tgt) doc_id = true)
  ∧ (is_Some (find_one src doc_id) → find_one tgt doc_id = None →
     CdcWorker.verify_doc (Up src) (Up tgt) doc_id = false)
  ∧ (find_one src doc_id = None → is_Some (find_one tgt doc_id) →
     CdcWorker.verify_doc (Up src) (Up tgt) doc_id = false)
  ∧ (∀ s t hs ht,
       find_one src doc_id = Some s → find_one tgt doc_id = Some t →
       doc_hash s = Ok hs → doc_hash t = Ok ht →
       CdcWorker.verify_doc (Up src) (Up tgt) doc_id = bool_decide (hs = ht))
  ∧ (∀ s t,
       find_one src doc_id = Some s → find_one tgt doc_id = Some t →
       (∃ e, doc_hash s = Raise e) ∨ (∃ e, doc_hash t = Raise e) →
       CdcWorker.verify_doc (Up src) (Up tgt) doc_id = false)
  ∧ (∀ e r, CdcWorker.verify_doc (Failing e) r doc_id = false)
  ∧ (∀ e, CdcWorker.verify_doc (Up src) (Failing e) doc_id = false).
Proof.
  unfold CdcWorker.verify_doc. cbn.
  repeat split.
  - by intros -> ->.
  - by intros [s ->] ->.
  - by intros -> [t ->].
  - intros s t hs ht -> -> Hs Ht. cbn. rewrite Hs. cbn. by rewrite Ht.
  - intros s t -> -> [[e He]|[e He]]; cbn.
    + by rewrite He.
    + destruct (doc_hash s); cbn; [by rewrite He | done].
Qed.

(** C8: an insert, update or replace event upserts the supplied post-image
    under its [_id], replacing whatever was there and touching no other
    document; a delete event removes the document with the supplied key and
    no other; an event of any other operation type leaves the target
    unchanged. *)
Theorem change_event_applied (c : ChangeStreamWorker.change) (tgt : collection) :
  (∀ op doc,
     ChangeStreamWorker.operationType c = Some op →
     op ∈ ["insert"; "update"; "replace"] →
     ChangeStreamWorker.fullDocument c = Some doc →
     ∃ tgt',
       ChangeStreamWorker.process_change_event c (Up tgt) = (Up tgt', true)
       ∧ find_one tgt' (_id doc) = Some doc
       ∧ ∀ k, k ≠ _id doc → tgt' !! k = tgt !! k)
  ∧ (∀ doc_key k,
       ChangeStreamWorker.operationType c = Some "delete" →
       ChangeStreamWorker.documentKey c = Some doc_key →
       doc_key !! "_id" = Some (VOid k) →
       ∃ tgt',
         ChangeStreamWorker.process_change_event c (Up tgt) = (Up tgt', true)
         ∧ find_one tgt' k = None
         ∧ ∀ k', k' ≠ k → tgt' !! k' = tgt !! k')
  ∧ (∀ op,
       ChangeStreamWorker.operationType c = Some op →
       op ∉ ["insert"; "update"; "replace"; "delete"] →
       ChangeStreamWorker.process_change_event c (Up tgt) = (Up tgt, true)).
Proof.
  unfold ChangeStreamWorker.process_change_event.
  split; [|split].
  - intros op doc -> Hop ->.
    assert (String.eqb op "insert" || String.eqb op "update"
            || String.eqb op "replace" = true) as ->.
    { set_unfold. destruct Hop as [->|[->|[->|[]]]]; reflexivity. }
    exists (<[_id doc := fields doc]> tgt). cbn.
    split; [by destruct (tgt !! _id doc)|].
    split.
    + unfold find_one. rewrite lookup_insert_eq. by destruct doc.
    + intros k Hk. by rewrite lookup_insert_ne.
  - intros doc_key k -> -> ->. cbn.
    exists (delete k tgt). split; [done|]. split.
    + unfold find_one. by rewrite lookup_delete_eq.
    + intros k' Hk'. by rewrite lookup_delete_ne.
  - intros op -> Hop.
    assert (∀ s, op ≠ s → String.eqb op s = false) as Hne.
    { intros s Hs. by apply String.eqb_neq. }
    set_unfold.
    rewrite !Hne by (intros ->; naive_solver). done.
Qed.

Lemma stage_carries_doc f (tgt : collection) d op :
  CdcWorker.stage f tgt d = Ok (Some op) → op = ReplaceOne d true.
Proof.
  unfold CdcWorker.stage. destruct (find_one tgt (_id d)); [|by intros [= <-]].
  destruct (doc_hash d); cbn; [|done].
  destruct (doc_hash d0); cbn; [|done].
  case_decide; [|done].
  destruct (CdcWorker.update_needed d d0) as [[]|]; cbn; [by intros [= <-]| |done].
  destruct f; cbn; [by intros [= <-]|done].
Qed.







End Theorems.

Section FileTheorems.
Context `{Runtime}.
Import Mongo Files.

Lemma run_app (σ : fs) (a b : list fs_op) : run σ (a ++ b) = run (run σ a) b.
Proof. unfold run. apply foldl_app. Qed.

Lemma string_length_app (a b : string) :
  String.length (a ++ b) = (String.length a + String.length b)%nat.
Proof. induction a as [|c a IH]; simpl; [done|by f_equal]. Qed.

Lemma temp_path_fresh (path : string) : path ++ ".tmp" ≠ path.
Proof.
  intros E. apply (f_equal String.length) in E.
  rewrite string_length_app in E. cbn in E. lia.
Qed.

Lemma step_writes_only (σ : fs) (p q : string) (op : fs_op) :
  Spec.writes_only p op → p ≠ q → step σ op !! q = σ !! q.
Proof.
  destruct op; cbn; try done; intros -> Hne; by rewrite lookup_insert_ne.
Qed.

Lemma run_writes_only (σ : fs) (p q : string) (ops : list fs_op) :
  Forall (Spec.writes_only p) ops → p ≠ q → run σ ops !! q = σ !! q.
Proof.
  intros Hall Hne. revert σ.
  induction Hall as [|op ops Hop _ IH]; intros σ; [done|].
  cbn. rewrite IH. by apply step_writes_only with p.
Qed.

Lemma dump_writes_only (p : string) (j : json) :
  Forall (Spec.writes_only p) (dump p j).
Proof.
  unfold dump. apply Forall_app. split.
  - apply Forall_forall. intros op Hop.
    apply elem_of_replicate in Hop as [-> _]. done.
  - by repeat constructor.
Qed.

Lemma run_dump (σ : fs) (p : string) (j : json) :
  run σ (dump p j) !! p = Some (Text j).
Proof.
  unfold dump. rewrite run_app. cbn. apply lookup_insert_eq.
Qed.

(** The common shape of the three saves. *)
Lemma temp_then_rename_atomic (σ : fs) (path : string) (data : json) :
  let ops := ([OpenW (path ++ ".tmp")] ++ dump (path ++ ".tmp") data
               ++ [Replace (path ++ ".tmp") path])%list in
  Spec.temp_then_rename path ops
  ∧ Spec.never_partial σ path ops data
  ∧ run σ ops !! path = Some (Text data).
Proof.
  set (tmp := path ++ ".tmp").
  set (front := ([OpenW tmp] ++ dump tmp data)%list).
  assert (Forall (Spec.writes_only tmp) front) as Hfront.
  { apply Forall_app. split; [by repeat constructor|apply dump_writes_only]. }
  assert (∀ σ0, run σ0 (front ++ [Replace tmp path]) !! path = Some (Text data))
    as Hfinal.
  { intros σ0. rewrite run_app. unfold front at 1. rewrite run_app.
    cbn [run foldl step]. fold (run (<[tmp:=Garbage ""]> σ0) (dump tmp data)).
    rewrite run_dump. apply lookup_insert_eq. }
  cbn zeta. replace ([OpenW tmp] ++ dump tmp data ++ [Replace tmp path])%list
    with (front ++ [Replace tmp path])%list
    by (unfold front; by rewrite <- app_assoc).
  split; [exists front; split; [reflexivity|exact Hfront]|].
  split; [|apply Hfinal].
  intros n. destruct (decide (n ≤ length front)%nat) as [Hle|Hgt].
  - left. rewrite take_app_le by done.
    apply run_writes_only with tmp; [|apply temp_path_fresh].
    by apply Forall_take.
  - right. rewrite take_ge; [apply Hfinal|].
    rewrite length_app. change (length [Replace tmp path]) with 1%nat. lia.
Qed.

Lemma existing_counter (σ : fs) (path key : string) :
  (match σ !! path with
   | Some (Text (JObject m)) => Spec.counter_ok m key
   | Some (Text JOther) => False
   | _ => True
   end) →
  get_default (CdcWorker.existing_data σ path) key (VInt 0)
  = Ok (VInt (Spec.persisted_total σ path key)).
Proof.
  unfold CdcWorker.existing_data, Spec.persisted_total, Spec.counter_ok.
  destruct (σ !! path) as [[text|j k|[m|]]|]; cbn; try done.
  intros [->|[z ->]]; done.
Qed.

Lemma checkpoint_data_counters (σ : fs) (path : string)
    (last_updated_at last_operation_time : value) (updates deletions : Z)
    (now : string) :
  Spec.counters_ok σ path →
  CdcWorker.checkpoint_data σ path last_updated_at last_operation_time
    updates deletions now
  = Ok (jobject
          [("last_updated_at", last_updated_at);
           ("last_operation_time", last_operation_time);
           ("timestamp", VStr now);
           ("updates", VInt (Spec.persisted_total σ path "updates" + updates));
           ("deletions",
            VInt (Spec.persisted_total σ path "deletions" + deletions))]).
Proof.
  intros Hok. unfold CdcWorker.checkpoint_data.
  rewrite !existing_counter; [done| |].
  all: unfold Spec.counters_ok in Hok;
    destruct (σ !! path) as [[text|j k|[m|]]|]; try done; tauto.
Qed.

(** C2: each of the three saves (bulk checkpoint, polling checkpoint, stream
    resume token) writes the sibling temporary path and then renames it over
    the final path; after any prefix of its writes the final path holds
    either what it held before or the complete new state.  The polling save
    does so, with the merged totals as the new state, whenever the file on
    disk is absent, unparseable, or a dictionary whose counters are integers;
    on any other file the merge raises before a file is opened and the disk
    is left as it was. *)
Theorem checkpoint_saves_atomic (σ : fs) :
  (∀ name last_id count now,
     let path := CollectionWorker.checkpoint_path name in
     let ops := CollectionWorker.save_checkpoint_ops name last_id count now in
     ∃ new, Spec.temp_then_rename path ops
            ∧ Spec.never_partial σ path ops new
            ∧ CollectionWorker.save_checkpoint σ name last_id count now !! path
              = Some (Text new))
  ∧ (∀ name last_updated_at last_operation_time updates deletions dir now,
       let path := CdcWorker.checkpoint_path dir name in
       let ops := CdcWorker.save_checkpoint_ops σ name last_updated_at
                    last_operation_time updates deletions dir now in
       let σ' := CdcWorker.save_checkpoint σ name last_updated_at
                   last_operation_time updates deletions dir now in
       (Spec.counters_ok σ path →
        let new :=
          jobject
            [("last_updated_at", last_updated_at);
             ("last_operation_time", last_operation_time);
             ("timestamp", VStr now);
             ("updates",
              VInt (Spec.persisted_total σ path "updates" + updates));
             ("deletions",
              VInt (Spec.persisted_total σ path "deletions" + deletions))] in
        ops = ([OpenW (path ++ ".tmp")] ++ dump (path ++ ".tmp") new
               ++ [Replace (path ++ ".tmp") path])%list
        ∧ Spec.temp_then_rename path ops
        ∧ Spec.never_partial σ path ops new
        ∧ σ' !! path = Some (Text new))
       ∧ (¬ Spec.counters_ok σ path → ops = [] ∧ σ' = σ))
  ∧ (∀ name token dir now,
       let path := ChangeStreamWorker.resume_token_path dir name in
       let ops := ChangeStreamWorker.save_resume_token_ops name token dir now in
       ∃ new, Spec.temp_then_rename path ops
              ∧ Spec.never_partial σ path ops new
              ∧ ChangeStreamWorker.save_resume_token σ name token dir now !! path
                = Some (Text new)).
Proof.
  split; [|split].
  - intros. eexists. apply temp_then_rename_atomic.
  - intros. subst ops σ'.
    unfold CdcWorker.save_checkpoint, CdcWorker.save_checkpoint_ops.
    fold path. split.
    + intros Hok. cbv zeta.
      rewrite (checkpoint_data_counters _ _ _ _ _ _ _ Hok).
      split; [reflexivity|]. apply temp_then_rename_atomic.
    + intros Hbad.
      assert (∃ e, CdcWorker.checkpoint_data σ path last_updated_at
                     last_operation_time updates deletions now = Raise e)
        as [e ->]; [|done].
      unfold CdcWorker.checkpoint_data, CdcWorker.existing_data.
      unfold Spec.counters_ok, Spec.counter_ok in Hbad.
      destruct (σ !! path) as [[text|j k|[m|]]|]; cbn;
        try (by destruct Hbad); [|by eexists].
      destruct (m !! "updates") as [[]|]; cbn; try (by eexists);
        destruct (m !! "deletions") as [[]|]; cbn; try (by eexists);
        destruct Hbad; split; eauto.
  - intros. eexists. apply temp_then_rename_atomic.
Qed.

Lemma persisted_total_lookup (σ : fs) (path key : string)
    (m : gmap string value) (z : Z) :
  σ !! path = Some (Text (JObject m)) → m !! key = Some (VInt z) →
  Spec.persisted_total σ path key = z.
Proof. unfold Spec.persisted_total. by intros -> ->. Qed.

Lemma save_checkpoint_totals (σ : fs) (name dir now : string)
    (last_updated_at last_operation_time : value) (updates deletions : Z) :
  let path := CdcWorker.checkpoint_path dir name in
  let σ' := CdcWorker.save_checkpoint σ name last_updated_at
              last_operation_time updates deletions dir now in
  Spec.counters_ok σ path →
  (∃ m, σ' !! path = Some (Text (JObject m))
        ∧ m !! "updates"
          = Some (VInt (Spec.persisted_total σ path "updates" + updates))
        ∧ m !! "deletions"
          = Some (VInt (Spec.persisted_total σ path "deletions" + deletions)))
  ∧ Spec.persisted_total σ' path "updates"
    = Spec.persisted_total σ path "updates" + updates
  ∧ Spec.persisted_total σ' path "deletions"
    = Spec.persisted_total σ path "deletions" + deletions
  ∧ Spec.counters_ok σ' path.
Proof.
  intros path σ' Hok. subst σ'.
  unfold CdcWorker.save_checkpoint, CdcWorker.save_checkpoint_ops.
  fold path. rewrite (checkpoint_data_counters _ _ _ _ _ _ _ Hok).
  destruct (temp_then_rename_atomic σ path
              (jobject
                 [("last_updated_at", last_updated_at);
                  ("last_operation_time", last_operation_time);
                  ("timestamp", VStr now);
                  ("updates",
                   VInt (Spec.persisted_total σ path "updates" + updates));
                  ("deletions",
                   VInt (Spec.persisted_total σ path "deletions" + deletions))]))
    as (_ & _ & Hfinal).
  cbn zeta in Hfinal. unfold jobject in Hfinal |- *.
  set (items := list_to_map _ : gmap string value) in Hfinal |- *.
  assert ((encode <$> items) !! "updates"
          = Some (VInt (Spec.persisted_total σ path "updates" + updates))) as Hu
    by (by rewrite lookup_fmap).
  assert ((encode <$> items) !! "deletions"
          = Some (VInt (Spec.persisted_total σ path "deletions" + deletions)))
    as Hd by (by rewrite lookup_fmap).
  split; [eauto|].
  rewrite !(persisted_total_lookup _ _ _ _ _ Hfinal Hu),
    !(persisted_total_lookup _ _ _ _ _ Hfinal Hd).
  split; [done|]. split; [done|].
  unfold Spec.counters_ok. rewrite Hfinal. split; right; eauto.
Qed.

(** C7: a save of the polling checkpoint writes, for [updates] and
    [deletions], the totals previously on disk plus the increments passed to
    the save. *)
Theorem polling_counters_cumulative (σ : fs) (name dir now : string)
    (last_updated_at last_operation_time : value) (updates deletions : Z) :
  let path := CdcWorker.checkpoint_path dir name in
  let σ' := CdcWorker.save_checkpoint σ name last_updated_at
              last_operation_time updates deletions dir now in
  Spec.counters_ok σ path →
  (∃ m, σ' !! path = Some (Text (JObject m))
        ∧ m !! "updates"
          = Some (VInt (Spec.persisted_total σ path "updates" + updates))
        ∧ m !! "deletions"
          = Some (VInt (Spec.persisted_total σ path "deletions" + deletions)))
  ∧ Spec.persisted_total σ' path "updates"
    = Spec.persisted_total σ path "updates" + updates
  ∧ Spec.persisted_total σ' path "deletions"
    = Spec.persisted_total σ path "deletions" + deletions.
Proof.
  intros path σ' Hok.
  destruct (save_checkpoint_totals σ name dir now last_updated_at
              last_operation_time updates deletions Hok) as (Hm & Hu & Hd & _).
  done.
Qed.

End FileTheorems.

Section DeleteTheorems.
Context `{Runtime}.
Import Mongo Files.

Lemma find_elem_of (c : collection) (doc : document) :
  doc ∈ find c ↔ c !! _id doc = Some (fields doc).
Proof.
  unfold find. rewrite list_elem_of_fmap. split.
  - intros ([k f] & -> & Hin). by apply elem_of_map_to_list in Hin.
  - intros Hdoc. exists (_id doc, fields doc). split; [by destruct doc|].
    by apply elem_of_map_to_list.
Qed.

Lemma find_one_elem_of (c : collection) (doc : document) :
  doc ∈ find c ↔ find_one c (_id doc) = Some doc.
Proof.
  rewrite find_elem_of. unfold find_one.
  destruct doc as [k f]. cbn. destruct (c !! k); cbn; naive_solver.
Qed.

Lemma length_find (c : collection) : length (find c) = size c.
Proof. unfold find. by rewrite length_fmap, length_map_to_list. Qed.

Lemma bulk_write_deletes (c : collection) (ks : list N) (k : N) :
  bulk_write c (DeleteOne <$> ks) !! k
  = if decide (k ∈ ks) then None else c !! k.
Proof.
  revert c. induction ks as [|a ks IH]; intros c; cbn.
  - rewrite decide_False by set_solver. done.
  - fold (bulk_write (delete a c) (DeleteOne <$> ks)). rewrite IH.
    destruct (decide (k ∈ ks)) as [Hin|Hnot].
    + rewrite decide_True by set_solver. done.
    + destruct (decide (k = a)) as [->|Hne].
      * rewrite decide_True by set_solver. apply lookup_delete_eq.
      * rewrite decide_False by set_solver. by apply lookup_delete_ne.
Qed.

Lemma delete_ops_ids (src : collection) (sample : list document) :
  CdcWorker.delete_ops src sample
  = DeleteOne <$>
      (_id <$> List.filter
                 (λ doc, bool_decide (find_one src (_id doc) = None)) sample).
Proof. unfold CdcWorker.delete_ops. by rewrite <- list_fmap_compose. Qed.

Lemma readable_counters_ok (σ : fs) (path : string) :
  Spec.checkpoint_readable σ path → Spec.counters_ok σ path.
Proof.
  unfold Spec.checkpoint_readable, Spec.counters_ok.
  destruct (σ !! path) as [[text|j k|[m|]]|]; done.
Qed.

Lemma readable_last_updated_at (σ : fs) (path : string) :
  Spec.checkpoint_readable σ path →
  ∃ v, match σ !! path with
       | Some f => json_load f ≫= λ data, get data "last_updated_at"
       | None => Ok VNone
       end = Ok v.
Proof.
  unfold Spec.checkpoint_readable.
  destruct (σ !! path) as [[text|j k|[m|]]|]; cbn; try done; eauto.
Qed.

(** X29: when the polling checkpoint is absent or a dictionary whose
    counters are integers, [handle_deletes] samples the first [S] documents
    of the target, [S] being 1000 when [force_check] is set or the target
    holds more documents than the source and 100 otherwise; it stages a
    delete exactly for the sampled documents absent from the source, applies
    them in one bulk write, and adds their number to the [deletions] total
    of the polling checkpoint, leaving the [updates] total as it was. *)
Theorem delete_reconciler (src tgt : collection) (σ : fs) (name now : string)
    (last_operation_time : value) (force_check : bool) :
  let path := CdcWorker.checkpoint_path PROGRESS_DIR name in
  let S := if force_check || bool_decide (size src < size tgt)%nat
           then 1000%nat else 100%nat in
  let sample := take S (find tgt) in
  let staged :=
    List.filter (λ doc, bool_decide (find_one src (_id doc) = None)) sample in
  let out := CdcWorker.handle_deletes src tgt σ name last_operation_time
               force_check now in
  Spec.checkpoint_readable σ path →
  length sample = (S `min` size tgt)%nat
  ∧ (∀ doc, doc ∈ sample → find_one tgt (_id doc) = Some doc)
  ∧ (∀ doc, doc ∈ staged ↔ doc ∈ sample ∧ find_one src (_id doc) = None)
  ∧ out.1.1 = bulk_write tgt ((λ doc, DeleteOne (_id doc)) <$> staged)
  ∧ (∀ k, out.1.1 !! k = if decide (k ∈ _id <$> staged) then None else tgt !! k)
  ∧ out.2 = length staged
  ∧ Spec.persisted_total out.1.2 path "deletions"
    = Spec.persisted_total σ path "deletions" + Z.of_nat (length staged)
  ∧ Spec.persisted_total out.1.2 path "updates"
    = Spec.persisted_total σ path "updates".
Proof.
  intros path S sample staged out Hread.
  split; [unfold sample; by rewrite length_take, length_find|].
  split.
  { intros doc Hdoc. apply find_one_elem_of.
    apply elem_of_take in Hdoc as (i & Hi & _). by eapply list_elem_of_lookup_2. }
  split.
  { intros doc. unfold staged.
    rewrite !list_elem_of_In, filter_In, bool_decide_eq_true. done. }
  assert (out = (bulk_write tgt ((λ doc, DeleteOne (_id doc)) <$> staged),
                 out.1.2, length staged)
          ∧ Spec.persisted_total out.1.2 path "deletions"
            = Spec.persisted_total σ path "deletions" + Z.of_nat (length staged)
          ∧ Spec.persisted_total out.1.2 path "updates"
            = Spec.persisted_total σ path "updates") as (Hout & Hdel & Hupd).
  { subst out. unfold CdcWorker.handle_deletes.
    set (ops := CdcWorker.delete_ops src _).
    assert (ops = (λ doc, DeleteOne (_id doc)) <$> staged) as Hops
      by reflexivity.
    assert (length ops = length staged) as Hlen
      by (by rewrite Hops, length_fmap).
    destruct (readable_last_updated_at σ path Hread) as [v Hv].
    fold path. rewrite Hv.
    destruct (save_checkpoint_totals σ name PROGRESS_DIR now v
                last_operation_time 0 (Z.of_nat (length staged))
                (readable_counters_ok _ _ Hread)) as (_ & Hu & Hd & _).
    fold path in Hu, Hd.
    destruct ops as [|op ops'].
    - cbn [fst snd]. rewrite <- Hlen, <- Hops. cbn. split; [done|]. split; lia.
    - cbn [fst snd]. rewrite Hlen, Hd, Hu, Hops. split; [done|]. split; lia. }
  rewrite Hout. cbn [fst snd]. split; [done|]. split; [|done].
  intros k. rewrite (list_fmap_compose _id DeleteOne). apply bulk_write_deletes.
Qed.
End DeleteTheorems.

Section Defects.
Import Mongo Files Examples.

(** C3: resuming the bulk loader from a checkpoint with [count = 6] and
    copying the four remaining documents saves a checkpoint with
    [count = 4]: the count restarts from zero instead of growing by the
    batch size. *)
Theorem bulk_resume_restarts_count :
  let path := CollectionWorker.checkpoint_path "X" in
  Spec.persisted_total checkpoint6 path "count" = 6
  ∧ ∃ st,
      @CollectionWorker.migrate_collection example_runtime 5 (λ _, VInt 0)
        source10 target6 checkpoint6 "X" = Some (Ok st)
      ∧ CollectionWorker.dest st = source10
      ∧ CollectionWorker.saves st
        = [((λ k, doc k "a") <$> [7; 8; 9; 10]%N, 10%N, 4%nat)]
      ∧ Spec.persisted_total (CollectionWorker.files st) path "count" = 4.
Proof.
  split; [reflexivity|]. eexists. split; [vm_compute; reflexivity|].
  split; [vm_compute; reflexivity|]. split; vm_compute; reflexivity.
Qed.

(** C4: after a [PyMongoError] the streaming worker sleeps five seconds and
    returns; the change stream is opened once, never reopened, and the event
    that follows the error is not consumed. *)
Theorem stream_error_ends_worker :
  let script := [insert_of (doc 1 "a") "t1";
                 ChangeStreamWorker.Fails PyMongoError;
                 insert_of (doc 2 "b") "t2"] in
  ∃ w,
    @ChangeStreamWorker.watch_collection_changes example_runtime script
      (Up ∅) ∅ "X" PROGRESS_DIR "now"
    = (w, ChangeStreamWorker.Returned, [insert_of (doc 2 "b") "t2"])
    ∧ ChangeStreamWorker.effects w
      = [ChangeStreamWorker.Watch VNone; ChangeStreamWorker.Sleep 5000]
    ∧ ChangeStreamWorker.tgt w = Up (collection_of [doc 1 "a"]).
Proof.
  eexists. split; [vm_compute; reflexivity|]. split; vm_compute; reflexivity.
Qed.

(** C5: with an unparseable polling checkpoint on disk, [handle_deletes]
    takes its sample of 1000, stages the four target documents absent from
    the source, deletes them in one bulk write and returns 4, but the
    checkpoint file is left as it was and no [deletions] total is
    incremented.  [load_checkpoint] reads the same file as absent,
    [save_checkpoint] called on it would record the four deletions, and so
    does [handle_deletes] itself when the file is absent. *)
Theorem delete_reconciler_loses_count :
  let path := CdcWorker.checkpoint_path PROGRESS_DIR "X" in
  let corrupt : fs := {[ path := Garbage "{" ]} in
  let out := @CdcWorker.handle_deletes example_runtime target6 source10
               corrupt "X" VNone false "now" in
  CdcWorker.sample_size target6 source10 false = 1000%nat
  ∧ length (CdcWorker.delete_ops target6 (take 1000 (find source10)))
    = 4%nat
  ∧ out.1.1 = target6
  ∧ out.2 = 4%nat
  ∧ out.1.2 = corrupt
  ∧ Spec.persisted_total out.1.2 path "deletions" = 0
  ∧ @CdcWorker.load_checkpoint corrupt "X" PROGRESS_DIR = Ok (VNone, VNone)
  ∧ Spec.persisted_total
      (@CdcWorker.save_checkpoint example_runtime corrupt "X" VNone VNone 0 4
         PROGRESS_DIR "now") path "deletions" = 4
  ∧ Spec.persisted_total
      (@CdcWorker.handle_deletes example_runtime target6 source10 ∅ "X"
         VNone false "now").1.2 path "deletions" = 4.
Proof. repeat split; vm_compute; reflexivity. Qed.

(** C9: when the target lacks the collection, [verify_collection] returns
    early with the exists check false and no status at all, neither [OK] nor
    [FAILED]. *)
Theorem verify_missing_collection_has_no_status :
  let r := Verify.verify_collection "X" (Ok ["Y"]) (Ok (3, 3)) (Ok ∅) (Ok ∅)
             true in
  Verify.check_exists r = Some false ∧ Verify.status r = None.
Proof. split; reflexivity. Qed.
End Defects.

Section Witnesses.
Import Mongo Files Examples.


Lemma delete_reconciler_witness :
  Spec.checkpoint_readable polled (CdcWorker.checkpoint_path PROGRESS_DIR "X")
  ∧ Spec.persisted_total
      (@CdcWorker.handle_deletes example_runtime target6 source10 polled "X"
         VNone false "now").1.2
      (CdcWorker.checkpoint_path PROGRESS_DIR "X") "deletions" = 5.
Proof.
  assert (Spec.checkpoint_readable polled
            (CdcWorker.checkpoint_path PROGRESS_DIR "X")) as Hread.
  { vm_compute. split; right; eexists; reflexivity. }
  split; [exact Hread|].
  destruct (@delete_reconciler example_runtime target6 source10 polled "X"
              "now" VNone false Hread) as (_ & _ & _ & _ & _ & _ & Hdel & _).
  rewrite Hdel. vm_compute. reflexivity.
Defined.


Lemma polling_counters_witness :
  Spec.persisted_total
    (@CdcWorker.save_checkpoint example_runtime polled "X" VNone VNone 3 4
       PROGRESS_DIR "t1")
    (CdcWorker.checkpoint_path PROGRESS_DIR "X") "updates" = 2 + 3.
Proof.
  eapply (@polling_counters_cumulative example_runtime polled "X" PROGRESS_DIR
            "t1" VNone VNone 3 4).
  vm_compute. split; right; eexists; reflexivity.
Defined.

Lemma change_event_witness :
  ∃ tgt',
    ChangeStreamWorker.process_change_event
      {| ChangeStreamWorker.operationType := Some "replace";
         ChangeStreamWorker.fullDocument := Some newer;
         ChangeStreamWorker.documentKey := None |}
      (Up (collection_of [older])) = (Up tgt', true)
    ∧ find_one tgt' (_id newer) = Some newer
    ∧ ∀ k, k ≠ _id newer → tgt' !! k = collection_of [older] !! k.
Proof.
  eapply (change_event_applied _ (collection_of [older])).
  - reflexivity.
  - set_solver.
  - reflexivity.
Defined.

Lemma verify_doc_witness :
  @CdcWorker.verify_doc example_runtime (Up source10) (Up target6) 7 = false.
Proof.
  destruct (@verify_doc_verdict example_runtime source10 target6 7)
    as (_ & Hone & _).
  apply Hone; vm_compute; eauto.
Defined.
End Witnesses.

(** * Further properties of the workers *)

Section StreamEvents.
Import Mongo Files ChangeStreamWorker.

Lemma apply_op_upsert (c : collection) (doc : document) :
  apply_op c (ReplaceOne doc true) = <[_id doc := fields doc]> c.
Proof. cbn. by destruct (c !! _id doc). Qed.

Lemma apply_op_idempotent (c : collection) (op : write_op) :
  apply_op (apply_op c op) op = apply_op c op.
Proof.
  destruct op as [doc upsert|k]; cbn.
  - destruct (c !! _id doc) eqn:Hc.
    + by rewrite lookup_insert_eq, insert_insert_eq.
    + destruct upsert.
      * by rewrite lookup_insert_eq, insert_insert_eq.
      * by rewrite Hc.
  - apply delete_delete_eq.
Qed.

Lemma remote_write_twice (r r' : remote) (op : write_op) :
  remote_write r op = Ok r' → remote_write r' op = Ok r'.
Proof.
  destruct r as [c|e]; cbn; [|done].
  intros [= <-]. cbn. by rewrite apply_op_idempotent.
Qed.

Lemma remote_noop_twice (r r' : remote) :
  remote_noop r = Ok r' → remote_noop r' = Ok r'.
Proof. destruct r; cbn; [|done]. by intros [= <-]. Qed.

(** X1: applying the same change event a second time changes nothing: the
    target and the returned flag are those of the first application. *)
Theorem change_event_idempotent (c : change) (r : remote) :
  process_change_event c (process_change_event c r).1
  = process_change_event c r.
Proof.
  unfold process_change_event.
  destruct (operationType c) as [op|]; [|done].
  destruct (String.eqb op "insert" || String.eqb op "update"
            || String.eqb op "replace").
  - destruct (fullDocument c) as [doc|]; [|done].
    destruct (remote_write r (ReplaceOne doc true)) as [r'|e] eqn:Hw; cbn.
    + by rewrite (remote_write_twice _ _ _ Hw).
    + by rewrite Hw.
  - destruct (String.eqb op "delete"); [|done].
    destruct (documentKey c) as [doc_key|]; [|done].
    destruct (doc_key !! "_id") as [[| | |k|]|]; try done.
    all: try (destruct (remote_noop r) as [r'|e] eqn:Hw; cbn;
              [by rewrite (remote_noop_twice _ _ Hw)|by rewrite Hw]).
    destruct (remote_write r (DeleteOne k)) as [r'|e] eqn:Hw; cbn.
    + by rewrite (remote_write_twice _ _ _ Hw).
    + by rewrite Hw.
Qed.

(** X2: [process_change_event] reports failure only when the call to the
    target raised, and then the target is as it was; on a reachable target
    it always reports success.  An insert, update or replace without a
    [fullDocument] changes nothing and still counts as processed. *)
Theorem change_event_failure_only_from_target (c : change) (r : remote) :
  ((process_change_event c r).2 = false →
   (process_change_event c r).1 = r ∧ ∃ e, r = Failing e)
  ∧ (∀ tgt, ∃ tgt', process_change_event c (Up tgt) = (Up tgt', true))
  ∧ (fullDocument c = None → operationType c ≠ Some "delete" →
     process_change_event c r = (r, true)).
Proof.
  unfold process_change_event. split; [|split].
  - destruct (operationType c) as [op|]; [|done].
    destruct (String.eqb op "insert" || String.eqb op "update"
              || String.eqb op "replace").
    + destruct (fullDocument c) as [doc|]; [|done].
      destruct r as [tgt|e]; cbn; [done|eauto].
    + destruct (String.eqb op "delete"); [|done].
      destruct (documentKey c) as [doc_key|]; [|done].
      destruct (doc_key !! "_id") as [[| | |k|]|]; try done;
        destruct r as [tgt|e]; cbn; try done; eauto.
  - intros tgt. destruct (operationType c) as [op|]; [|eauto].
    destruct (String.eqb op "insert" || String.eqb op "update"
              || String.eqb op "replace").
    + destruct (fullDocument c) as [doc|]; cbn; eauto.
    + destruct (String.eqb op "delete"); [|eauto].
      destruct (documentKey c) as [doc_key|]; [|eauto].
      destruct (doc_key !! "_id") as [[| | |k|]|]; cbn; eauto.
  - intros -> Hop. destruct (operationType c) as [op|]; [|done].
    destruct (String.eqb op "insert" || String.eqb op "update"
              || String.eqb op "replace"); [done|].
    destruct (String.eqb op "delete") eqn:Hd; [|done].
    apply String.eqb_eq in Hd as ->. done.
Qed.
End StreamEvents.

Section Verifier.
Import Verify.

Lemma verify_indexes_subseteq (src tgt : indexes) :
  forallb
    (λ '(idx_name, src_keys),
       match tgt !! idx_name with
       | None => false
       | Some tgt_keys => bool_decide (src_keys = tgt_keys)
       end)
    (map_to_list src) = true
  ↔ src ⊆ tgt.
Proof.
  rewrite forallb_forall, map_subseteq_spec. split.
  - intros Hall name keys Hsrc.
    specialize (Hall (name, keys)). cbn in Hall.
    destruct (tgt !! name) as [keys'|].
    + rewrite bool_decide_eq_true in Hall. f_equal. symmetry. apply Hall.
      apply list_elem_of_In. by apply elem_of_map_to_list.
    + discriminate Hall. apply list_elem_of_In. by apply elem_of_map_to_list.
  - intros Hsub [name keys] Hin.
    apply list_elem_of_In, elem_of_map_to_list in Hin.
    rewrite (Hsub _ _ Hin). by apply bool_decide_eq_true.
Qed.

(** X3: on two reachable index listings [verify_indexes] answers true
    exactly when they are the same map from index names to key patterns; if
    either listing raises it answers false. *)
Theorem verify_indexes_iff_equal (src tgt : indexes) :
  (verify_indexes (Ok src) (Ok tgt) = true ↔ src = tgt)
  ∧ (∀ e other, verify_indexes (Raise e) other = false
                ∧ verify_indexes (Ok src) (Raise e) = false).
Proof.
  split; [|done]. unfold verify_indexes.
  destruct (decide (size src ≠ size tgt)) as [Hne|Heq].
  - split; [done|]. by intros ->.
  - assert (size src = size tgt) as Hsize
      by (destruct (decide (size src = size tgt)); [done|by destruct Heq]).
    rewrite verify_indexes_subseteq. split.
    + intros Hsub. apply map_subseteq_size_eq; [done|lia].
    + by intros ->.
Qed.

(** X4: when the target has the collection, every check is recorded and the
    status is [OK] exactly when the counts are readable and within
    tolerance, the indexes match and the document sample matches; in every
    other case it is [FAILED]. *)
Theorem status_ok_iff_all_checks (name : string) (names : list string)
    (counts : result (Z * Z)) (src_indexes tgt_indexes : result indexes)
    (docs_match : bool) :
  name ∈ names →
  let r := verify_collection name (Ok names) counts src_indexes tgt_indexes
             docs_match in
  check_exists r = Some true
  ∧ check_indexes r = Some (verify_indexes src_indexes tgt_indexes)
  ∧ check_documents r = Some docs_match
  ∧ (status r = Some "OK"
     ↔ (∃ s t, counts = Ok (s, t) ∧ count_match s t = true)
       ∧ verify_indexes src_indexes tgt_indexes = true
       ∧ docs_match = true)
  ∧ (status r ≠ Some "OK" → status r = Some "FAILED").
Proof.
  intros Hin r. subst r. unfold verify_collection.
  rewrite bool_decide_eq_true_2 by done. cbn.
  split; [done|]. split; [done|]. split; [done|].
  destruct counts as [[s t]|e]; cbn.
  - assert ((∃ s' t', @Ok (Z * Z) (s, t) = Ok (s', t')
                      ∧ count_match s' t' = true)
            ↔ count_match s t = true) as ->.
    { split; [by intros (? & ? & [= <- <-] & ?)|eauto]. }
    destruct (count_match s t), (verify_indexes src_indexes tgt_indexes),
      docs_match; cbn; intuition (try discriminate; try congruence).
  - split; [|done]. split; [done|]. intros [(s & t & [=] & _) _].
Qed.
End Verifier.

Section StreamLoop.
Context `{Runtime}.
Import Mongo Files ChangeStreamWorker.

Lemma watch_loop_goes_on (pre rest : list poll) (name dir now : string)
    (w : watcher) :
  Forall goes_on pre →
  ∃ w' sleeps,
    watch_loop (pre ++ rest) name dir now w = watch_loop rest name dir now w'
    ∧ effects w' = (effects w ++ (Sleep <$> sleeps))%list
    ∧ (processed w' + errors w' = processed w + errors w + events pre)%nat
    ∧ stream_token w' = last_token pre (stream_token w)
    ∧ (∀ c, tgt w = Up c →
            errors w' = errors w ∧ ∃ c', tgt w' = Up c').
Proof.
  intros Hpre. revert w. induction Hpre as [|p pre [Hp1 Hp2] _ IH]; intros w.
  - exists w, []. cbn. rewrite app_nil_r. repeat split; eauto; lia.
  - destruct p as [| |c token|e]; [done| | |].
    + cbn [app watch_loop].
      edestruct IH as (w' & sleeps & -> & He & Hc & Ht & Hup).
      exists w', (100%nat :: sleeps). cbn in *.
      split; [done|]. split; [by rewrite He, <- app_assoc|].
      split; [done|]. split; [done|]. exact Hup.
    + cbn [app watch_loop].
      destruct (process_change_event c (tgt w)) as [tgt' success] eqn:Hpc.
      edestruct IH as (w' & sleeps & -> & He & Hc & Ht & Hup).
      exists w', sleeps. cbn in *.
      split; [done|]. split; [done|].
      split; [destruct success; unfold events in *; cbn; lia|].
      split; [done|].
      intros c0 Hc0. rewrite Hc0 in Hpc.
      destruct (change_event_failure_only_from_target c (Up c0))
        as (_ & Hok & _).
      destruct (Hok c0) as [c1 Hc1]. rewrite Hc1 in Hpc.
      injection Hpc as <- <-. eapply Hup. done.
    + cbn [app watch_loop]. rewrite decide_False by (intros ->; done).
      edestruct IH as (w' & sleeps & -> & He & Hc & Ht & Hup).
      exists w', (5000%nat :: sleeps). cbn in *.
      split; [done|]. split; [by rewrite He, <- app_assoc|].
      split; [done|]. split; [done|]. exact Hup.
Qed.

Lemma save_resume_token_lookup (σ : fs) (name dir now : string) (token : value) :
  save_resume_token σ name token dir now !! resume_token_path dir name
  = Some (Text (jobject [("resume_token", token); ("timestamp", VStr now)])).
Proof. apply temp_then_rename_atomic. Qed.

(** X5: whatever the stream delivered before, a [PyMongoError] from
    [try_next] makes [watch_collection_changes] sleep five seconds, write the
    current resume token to disk and return: the stream was opened once, and
    the turns after the error are never taken. *)
Theorem worker_returns_on_mongo_error (pre rest : list poll) (target : remote)
    (σ : fs) (name dir now : string) (saved : value) :
  load_resume_token σ name dir = Ok saved →
  Forall goes_on pre →
  let start := if truthy saved then saved else VNone in
  ∃ w sleeps,
    watch_collection_changes (pre ++ Fails PyMongoError :: rest) target σ
      name dir now = (w, Returned, rest)
    ∧ effects w = Watch start :: (Sleep <$> (sleeps ++ [5000%nat])%list)
    ∧ stream_token w = last_token pre start
    ∧ files w !! resume_token_path dir name
      = Some (Text (jobject [("resume_token", last_token pre start);
                             ("timestamp", VStr now)])).
Proof.
  intros Hload Hpre start. unfold watch_collection_changes.
  rewrite Hload. fold start.
  edestruct (watch_loop_goes_on pre (Fails PyMongoError :: rest) name dir now)
    as (w' & sleeps & -> & He & _ & Ht & _); [done|].
  cbn [watch_loop]. rewrite decide_True by done. cbn in *.
  eexists _, sleeps. split; [reflexivity|]. cbn.
  split; [by rewrite He, fmap_app|]. split; [done|].
  rewrite Ht. apply save_resume_token_lookup.
Qed.

(** X6: while the stream neither fails with [PyMongoError] nor is shut
    down, every delivered change is counted once, as processed or as an
    error; on a reachable target none is an error, so [processed] is the
    number of changes delivered, and the worker is still polling. *)
Theorem worker_counts_every_change (script : list poll) (target : remote)
    (σ : fs) (name dir now : string) (saved : value) :
  load_resume_token σ name dir = Ok saved →
  Forall goes_on script →
  ∃ w,
    watch_collection_changes script target σ name dir now = (w, Polling, [])
    ∧ (processed w + errors w = events script)%nat
    ∧ (∀ c, target = Up c →
            processed w = events script ∧ errors w = O ∧ ∃ c', tgt w = Up c').
Proof.
  intros Hload Hpre. unfold watch_collection_changes. rewrite Hload.
  edestruct (watch_loop_goes_on script [] name dir now)
    as (w' & sleeps & Hw & _ & Hc & _ & Hup); [done|].
  rewrite app_nil_r in Hw. rewrite Hw. cbn in *.
  exists w'. split; [done|]. split; [done|].
  intros c ->. destruct (Hup c eq_refl) as [He Hc']. split; [lia|done].
Qed.

End StreamLoop.

Section RoundTrips.
Context `{Runtime}.
Import Mongo Files.

Lemma cdc_save_lookup (σ : fs) (name dir now : string)
    (last_updated_at last_operation_time : value) (updates deletions : Z) :
  Spec.counters_ok σ (CdcWorker.checkpoint_path dir name) →
  ∃ m,
    CdcWorker.save_checkpoint σ name last_updated_at last_operation_time
      updates deletions dir now !! CdcWorker.checkpoint_path dir name
    = Some (Text (JObject m))
    ∧ m !! "last_updated_at" = Some (encode last_updated_at)
    ∧ m !! "last_operation_time" = Some (encode last_operation_time).
Proof.
  intros Hok. unfold CdcWorker.save_checkpoint, CdcWorker.save_checkpoint_ops.
  rewrite (checkpoint_data_counters _ _ _ _ _ _ _ Hok).
  eexists. split; [apply temp_then_rename_atomic|].
  split; by rewrite lookup_fmap.
Qed.

(** X8: what [save_checkpoint] of the polling worker writes,
    [load_checkpoint] reads back: the two watermarks as [MongoJSONEncoder]
    encodes them, so a datetime comes back as its ISO string and an ObjectId
    as its hexadecimal string. *)
Theorem cdc_checkpoint_round_trip (σ : fs) (name dir now : string)
    (last_updated_at last_operation_time : value) (updates deletions : Z) :
  Spec.counters_ok σ (CdcWorker.checkpoint_path dir name) →
  CdcWorker.load_checkpoint
    (CdcWorker.save_checkpoint σ name last_updated_at last_operation_time
       updates deletions dir now) name dir
  = Ok (encode last_updated_at, encode last_operation_time).
Proof.
  intros Hok.
  destruct (cdc_save_lookup σ name dir now last_updated_at
              last_operation_time updates deletions Hok) as (m & Hm & Hu & Ho).
  unfold CdcWorker.load_checkpoint. rewrite Hm. cbn. by rewrite Hu, Ho.
Qed.

(** X9: the resume token [save_resume_token] writes is the one
    [load_resume_token] returns, whatever was on disk before. *)
Theorem resume_token_round_trip (σ : fs) (name dir now token : string) :
  ChangeStreamWorker.load_resume_token
    (ChangeStreamWorker.save_resume_token σ name (VStr token) dir now)
    name dir
  = Ok (VStr token).
Proof.
  unfold ChangeStreamWorker.load_resume_token.
  rewrite save_resume_token_lookup. cbn. by rewrite lookup_fmap.
Qed.
End RoundTrips.

Section ObjectIds.
Import Mongo Files.

Lemma hex_value_digit (m : N) : (m < 16)%N → hex_value (hex_digit m) = Some m.
Proof.
  intros Hm. destruct m as [|p]; [reflexivity|].
  do 4 (destruct p as [p|p|]; try reflexivity); lia.
Qed.

Lemma hex_parse_hex_of (d : nat) (n : N) (acc : string) (a : N) :
  hex_parse (hex_of d n acc) a
  = hex_parse acc (a * 16 ^ N.of_nat d + n mod 16 ^ N.of_nat d)%N.
Proof.
  revert n acc a. induction d as [|d IH]; intros n acc a.
  - cbn. f_equal. rewrite N.mod_1_r. lia.
  - cbn [hex_of]. rewrite IH. cbn [hex_parse].
    rewrite hex_value_digit by (apply N.mod_lt; lia). f_equal.
    rewrite Nat2N.inj_succ, N.pow_succ_r', N.Div0.mod_mul_r. lia.
Qed.

Lemma length_hex_of (d : nat) (n : N) (acc : string) :
  String.length (hex_of d n acc) = (d + String.length acc)%nat.
Proof.
  revert n acc. induction d as [|d IH]; intros n acc; [done|].
  cbn [hex_of]. rewrite IH. cbn. lia.
Qed.

(** X10: [ObjectId(str(oid))] is [oid] again for every 12-byte ObjectId, so
    the [last_id] that [save_checkpoint] of the bulk loader writes as a
    string is read back by [load_checkpoint] and turned by the resume query
    into [{"_id": {"$gt": last_id}}]. *)
Theorem bulk_checkpoint_round_trip `{Runtime} (σ : fs) (name : string)
    (last_id : N) (count : nat) (now : value) :
  (last_id < 2 ^ 96)%N →
  ObjectId (VStr (oid_str last_id)) = Ok last_id
  ∧ (last_id ← CollectionWorker.load_checkpoint
                 (CollectionWorker.save_checkpoint σ name last_id count now)
                 name;
     CollectionWorker.resume_query last_id)
    = Ok (QIdGt last_id).
Proof.
  intros Hlt.
  assert (ObjectId (VStr (oid_str last_id)) = Ok last_id) as Hoid.
  { unfold ObjectId, oid_str. rewrite length_hex_of. cbn [String.length].
    change (24 + 0 =? 24)%nat with true. cbn match.
    rewrite hex_parse_hex_of. cbn [hex_parse].
    rewrite N.mod_small; [done|]. exact Hlt. }
  split; [done|].
  assert (CollectionWorker.load_checkpoint
            (CollectionWorker.save_checkpoint σ name last_id count now) name
          = Ok (VStr (oid_str last_id))) as ->.
  { unfold CollectionWorker.load_checkpoint, CollectionWorker.save_checkpoint,
      CollectionWorker.save_checkpoint_ops.
    pose proof (temp_then_rename_atomic σ (CollectionWorker.checkpoint_path name))
      as Hsave. cbn zeta in Hsave. rewrite (proj2 (proj2 (Hsave _))).
    cbn. by rewrite lookup_fmap. }
  assert (truthy (VStr (oid_str last_id)) = true) as Htruthy.
  { cbn. destruct (String.eqb_spec (oid_str last_id) "") as [E|]; [|done].
    apply (f_equal String.length) in E. unfold oid_str in E.
    rewrite length_hex_of in E. done. }
  unfold mbind, result_bind, rbind, CollectionWorker.resume_query.
  rewrite Htruthy, Hoid. done.
Qed.
End ObjectIds.

Section PollingBatches.
Context `{Runtime}.
Import Mongo Files.

(** X11: the corner cases of the staging decision.  A document missing from
    the target is staged without any hashing; a document whose hash equals
    the target's is never staged, [force_refresh] or not; with different
    hashes and no [updatedAt] on one of the sides it is always staged; and
    [force_refresh] stages every differing document whose timestamps can be
    compared, but a comparison that raises still raises. *)
Theorem stage_corner_cases (force_refresh : bool) (tgt : collection)
    (doc : document) :
  (find_one tgt (_id doc) = None →
   CdcWorker.stage force_refresh tgt doc = Ok (Some (ReplaceOne doc true)))
  ∧ (∀ tgt_doc h,
       find_one tgt (_id doc) = Some tgt_doc →
       doc_hash doc = Ok h → doc_hash tgt_doc = Ok h →
       CdcWorker.stage force_refresh tgt doc = Ok None)
  ∧ (∀ tgt_doc hs ht,
       find_one tgt (_id doc) = Some tgt_doc →
       doc_hash doc = Ok hs → doc_hash tgt_doc = Ok ht → hs ≠ ht →
       fields doc !! "updatedAt" = None
       ∨ fields tgt_doc !! "updatedAt" = None →
       CdcWorker.stage force_refresh tgt doc = Ok (Some (ReplaceOne doc true)))
  ∧ (∀ tgt_doc hs ht,
       find_one tgt (_id doc) = Some tgt_doc →
       doc_hash doc = Ok hs → doc_hash tgt_doc = Ok ht → hs ≠ ht →
       match CdcWorker.update_needed doc tgt_doc with
       | Ok _ =>
           CdcWorker.stage true tgt doc = Ok (Some (ReplaceOne doc true))
       | Raise e => CdcWorker.stage true tgt doc = Raise e
       end).
Proof.
  unfold CdcWorker.stage. split; [by intros ->|]. split; [|split].
  - intros tgt_doc h -> Hs Ht. cbn. rewrite Hs. cbn. rewrite Ht. cbn.
    by rewrite decide_False by (intros Hne; by apply Hne).
  - intros tgt_doc hs ht -> Hs Ht Hne Hmiss. rewrite Hs. cbn. rewrite Ht. cbn.
    rewrite decide_True by done. unfold CdcWorker.update_needed.
    destruct Hmiss as [-> | ->]; [done|].
    by destruct (fields doc !! "updatedAt").
  - intros tgt_doc hs ht -> Hs Ht Hne. rewrite Hs. cbn. rewrite Ht. cbn.
    rewrite decide_True by done.
    destruct (CdcWorker.update_needed doc tgt_doc) as [[]|]; done.
Qed.

Lemma NoDup_fmap_inj_on {A B} (f : A → B) (l : list A) (x y : A) :
  NoDup (f <$> l) → x ∈ l → y ∈ l → f x = f y → x = y.
Proof.
  induction l as [|a l IH]; [by intros _ ?%elem_of_nil|].
  rewrite fmap_cons, NoDup_cons. intros [Ha Hnd] Hx Hy Hf.
  apply elem_of_cons in Hx as [->|Hx]; apply elem_of_cons in Hy as [->|Hy].
  - done.
  - destruct Ha. rewrite Hf. by apply list_elem_of_fmap_2.
  - destruct Ha. rewrite <- Hf. by apply list_elem_of_fmap_2.
  - by apply IH.
Qed.

Lemma bulk_write_cons (c : collection) (op : write_op) (ops : list write_op) :
  bulk_write c (op :: ops) = bulk_write (apply_op c op) ops.
Proof. done. Qed.

Lemma bulk_write_upserts (c : collection) (docs : list document) :
  NoDup (_id <$> docs) →
  (∀ d, d ∈ docs →
        bulk_write c ((λ d, ReplaceOne d true) <$> docs) !! _id d
        = Some (fields d))
  ∧ (∀ k, k ∉ _id <$> docs →
          bulk_write c ((λ d, ReplaceOne d true) <$> docs) !! k = c !! k).
Proof.
  revert c. induction docs as [|d0 docs IH]; intros c Hnd.
  - split; [set_solver|done].
  - apply NoDup_cons in Hnd as [Hd0 Hnd].
    rewrite fmap_cons, bulk_write_cons, apply_op_upsert.
    destruct (IH (<[_id d0 := fields d0]> c) Hnd) as [IHin IHout].
    split.
    + intros d [->|Hd]%elem_of_cons; [|by apply IHin].
      rewrite IHout by done. apply lookup_insert_eq.
    + intros k Hk. rewrite fmap_cons, not_elem_of_cons in Hk.
      destruct Hk as [Hne Hk]. rewrite IHout by done.
      by rewrite lookup_insert_ne.
Qed.

Lemma batch_operations_docs (f : bool) (tgt : collection)
    (docs : list document) (ops : list write_op) :
  CdcWorker.batch_operations f tgt docs = Ok ops →
  ∃ staged,
    ops = (λ d, ReplaceOne d true) <$> staged
    ∧ staged `sublist_of` docs
    ∧ (∀ d, d ∈ docs → d ∉ staged → CdcWorker.stage f tgt d = Ok None).
Proof.
  revert ops. induction docs as [|d docs IH]; intros ops; cbn.
  - intros [= <-]. exists []. split; [done|]. split; [done|set_solver].
  - destruct (CdcWorker.stage f tgt d) as [staged|] eqn:Hd; cbn; [|done].
    destruct (CdcWorker.batch_operations f tgt docs) as [ops'|]; cbn; [|done].
    intros [= <-]. destruct (IH ops' eq_refl) as (rest & -> & Hsub & Hnone).
    destruct staged as [op|]; cbn.
    + apply stage_carries_doc in Hd as ->.
      exists (d :: rest). split; [done|]. split; [by constructor|].
      intros d' [->|Hd']%elem_of_cons Hnot; [set_solver|].
      apply Hnone; [done|set_solver].
    + exists rest. split; [done|]. split; [by constructor|].
      intros d' [->|Hd']%elem_of_cons Hnot; [done|by apply Hnone].
Qed.

(** X12: polling is idempotent on a batch.  Once the staged upserts of a
    batch are written, running the same batch against the new target stages
    nothing, provided the documents of the batch have distinct ids and can
    be hashed. *)
Theorem second_pass_stages_nothing (force_refresh : bool) (tgt : collection)
    (docs : list document) (ops : list write_op) :
  NoDup (_id <$> docs) →
  (∀ d, d ∈ docs → ∃ h, doc_hash d = Ok h) →
  CdcWorker.batch_operations force_refresh tgt docs = Ok ops →
  CdcWorker.batch_operations force_refresh (bulk_write tgt ops) docs = Ok [].
Proof.
  intros Hnd Hhash Hops.
  destruct (batch_operations_docs _ _ _ _ Hops) as (staged & -> & Hsub & Hnone).
  assert (NoDup (_id <$> staged)) as Hnd'.
  { eapply sublist_NoDup; [exact Hnd|by apply fmap_sublist]. }
  destruct (bulk_write_upserts tgt staged Hnd') as [Hin Hout].
  set (tgt' := bulk_write tgt ((λ d, ReplaceOne d true) <$> staged)) in *.
  assert (∀ d, d ∈ docs → CdcWorker.stage force_refresh tgt' d = Ok None)
    as Hstage.
  { intros d Hd. destruct (decide (d ∈ staged)) as [Hst|Hst].
    - unfold CdcWorker.stage, find_one. rewrite (Hin d Hst). cbn.
      destruct (Hhash d Hd) as [h Hh].
      replace {| _id := _id d; fields := fields d |} with d by by destruct d.
      rewrite Hh. cbn.
      by rewrite decide_False by (intros Hne; by apply Hne).
    - rewrite <- (Hnone d Hd Hst). unfold CdcWorker.stage, find_one.
      rewrite Hout; [done|].
      intros (d' & Hid & Hd')%list_elem_of_fmap.
      assert (d' ∈ docs) as Hd'docs by (by eapply elem_of_sublist).
      assert (d = d') as <-; [|done].
      by apply (NoDup_fmap_inj_on _id docs). }
  clear -Hstage. induction docs as [|d docs IH]; [done|]. cbn.
  rewrite Hstage by set_solver. cbn. rewrite IH; [done|].
  intros d' Hd'. apply Hstage. set_solver.
Qed.
End PollingBatches.

Section Reconciler.
Context `{Runtime}.
Import Mongo Files.

Lemma handle_deletes_target (src tgt : collection) (σ : fs) (name now : string)
    (last_operation_time : value) (force_check : bool) :
  (CdcWorker.handle_deletes src tgt σ name last_operation_time force_check
     now).1.1
  = bulk_write tgt
      (DeleteOne <$>
         (_id <$> List.filter
                    (λ doc, bool_decide (find_one src (_id doc) = None))
                    (take (CdcWorker.sample_size src tgt force_check)
                       (find tgt)))).
Proof.
  unfold CdcWorker.handle_deletes. rewrite <- delete_ops_ids.
  by destruct (CdcWorker.delete_ops src _).
Qed.

(** X13: the delete reconciler only ever removes documents, and never one
    that the source still has.  When the whole target fits in the sample
    (always the case for at most 100 documents) every document left in the
    target exists in the source. *)
Theorem reconciler_spares_source_documents (src tgt : collection) (σ : fs)
    (name now : string) (last_operation_time : value) (force_check : bool) :
  let tgt' :=
    (CdcWorker.handle_deletes src tgt σ name last_operation_time force_check
       now).1.1 in
  (∀ k, is_Some (src !! k) → tgt' !! k = tgt !! k)
  ∧ tgt' ⊆ tgt
  ∧ (100 ≤ CdcWorker.sample_size src tgt force_check)%nat
  ∧ ((size tgt ≤ CdcWorker.sample_size src tgt force_check)%nat →
     ∀ k, is_Some (tgt' !! k) → is_Some (src !! k)).
Proof.
  intros tgt'. subst tgt'. rewrite handle_deletes_target.
  set (sample := take _ (find tgt)).
  set (staged := List.filter _ sample).
  assert (∀ k, k ∈ _id <$> staged ↔
               ∃ doc, doc ∈ sample ∧ _id doc = k ∧ src !! k = None) as Hstaged.
  { intros k. rewrite list_elem_of_fmap. unfold staged. split.
    - intros (doc & -> & Hin). apply list_elem_of_In, filter_In in Hin as [Hin Hf].
      exists doc. split; [by apply list_elem_of_In|]. split; [done|].
      apply bool_decide_eq_true in Hf. unfold find_one in Hf.
      by destruct (src !! _id doc).
    - intros (doc & Hin & <- & Hsrc). exists doc. split; [done|].
      apply list_elem_of_In, filter_In. split; [by apply list_elem_of_In|].
      apply bool_decide_eq_true. unfold find_one. by rewrite Hsrc. }
  split; [|split; [|split]].
  - intros k [f Hk]. rewrite bulk_write_deletes.
    rewrite decide_False; [done|].
    rewrite Hstaged. intros (doc & _ & _ & Hnone). congruence.
  - apply map_subseteq_spec. intros k f. rewrite bulk_write_deletes.
    by destruct (decide (k ∈ _id <$> staged)).
  - unfold CdcWorker.sample_size.
    destruct (force_check || bool_decide _); lia.
  - intros Hfit k. rewrite bulk_write_deletes.
    destruct (decide (k ∈ _id <$> staged)) as [|Hnot]; [by intros [? [=]]|].
    intros [f Hk]. destruct (src !! k) eqn:Hsrc; [done|]. destruct Hnot.
    apply Hstaged. exists {| _id := k; fields := f |}.
    split; [|done]. unfold sample.
    rewrite take_ge by (by rewrite length_find). by apply find_elem_of.
Qed.
End Reconciler.

Section BulkLoader.
Context `{Runtime}.
Import Mongo Files.

Global Instance id_le_total : Total id_le.
Proof. intros a b. unfold id_le. lia. Qed.

Global Instance id_le_transitive : Transitive id_le.
Proof. intros a b c. unfold id_le. lia. Qed.

Lemma NoDup_ids_find (c : collection) : NoDup (_id <$> find c).
Proof.
  unfold find. rewrite <- list_fmap_compose.
  apply (NoDup_fst_map_to_list c).
Qed.

Lemma find_unique_id (c : collection) (a b : document) :
  a ∈ find c → b ∈ find c → _id a = _id b → a = b.
Proof.
  intros Ha Hb Hid.
  by apply (NoDup_fmap_inj_on _id (find c) a b (NoDup_ids_find c)).
Qed.

Lemma elem_of_find_query (c : collection) (q : query) (d : document) :
  d ∈ find_query c q ↔ d ∈ find c ∧ matches q d = true.
Proof. unfold find_query. by rewrite !list_elem_of_In, filter_In. Qed.

Lemma NoDup_find_query (c : collection) (q : query) : NoDup (find_query c q).
Proof.
  unfold find_query. apply (sublist_NoDup _ (find c)).
  - apply (NoDup_fmap_1 _id), NoDup_ids_find.
  - induction (find c) as [|d l IH]; cbn; [constructor|].
    destruct (matches q d); by constructor.
Qed.

Lemma last_snoc {A} (first : A) (others : list A) :
  ∃ front : list A, first :: others = (front ++ [List.last others first])%list.
Proof.
  induction others as [|a l _] using rev_ind.
  - by exists [].
  - exists (first :: l). by rewrite last_last.
Qed.

(** What a non-empty batch is, relative to everything the query selects. *)
Lemma batch_spec (src : collection) (q : query) (n : nat)
    (first : document) (others : list document) :
  find_sorted src q n = first :: others →
  let batch := first :: others in
  let last_doc := List.last others first in
  last_doc ∈ batch
  ∧ NoDup (_id <$> batch)
  ∧ (∀ d, d ∈ batch → d ∈ find src ∧ matches q d = true
                      ∧ (_id d ≤ _id last_doc)%N)
  ∧ (∀ d, d ∈ find src → matches q d = true →
          (_id d ≤ _id last_doc)%N → d ∈ batch)
  ∧ (length (find_query src (QIdGt (_id last_doc))) + length batch
     = length (find_query src q))%nat.
Proof.
  intros Hbatch batch last_doc.
  set (sorted := merge_sort id_le (find_query src q)).
  assert (batch = take n sorted) as Htake by exact (eq_sym Hbatch).
  assert (sorted ≡ₚ find_query src q) as Hperm
    by apply merge_sort_Permutation.
  assert (StronglySorted id_le sorted) as Hsorted
    by (apply StronglySorted_merge_sort; apply _).
  assert (NoDup sorted) as Hnd by (rewrite Hperm; apply NoDup_find_query).
  assert (sorted = (batch ++ drop n sorted)%list) as Hsplit
    by (by rewrite Htake, take_drop).
  destruct (last_snoc first others) as [front Hfront].
  fold batch last_doc in Hfront.
  assert (last_doc ∈ batch) as Hlast by (rewrite Hfront; set_solver).
  assert (∀ d, d ∈ sorted ↔ d ∈ find src ∧ matches q d = true) as Hin.
  { intros d. by rewrite Hperm, elem_of_find_query. }
  assert (∀ d, d ∈ batch → (_id d ≤ _id last_doc)%N) as Hmax.
  { intros d Hd. rewrite Hfront in Hd. apply elem_of_app in Hd as [Hd|Hd].
    - eapply (StronglySorted_app_1_elem_of id_le front [last_doc]);
        [|done|set_solver].
      rewrite <- Hfront. eapply StronglySorted_app_1_l. by rewrite <- Hsplit.
    - apply list_elem_of_singleton in Hd as ->. lia. }
  assert (∀ d, d ∈ drop n sorted → (_id last_doc < _id d)%N) as Hrest.
  { intros d Hd.
    assert (id_le last_doc d) as Hle.
    { eapply (StronglySorted_app_1_elem_of id_le batch (drop n sorted));
        [by rewrite <- Hsplit|done|done]. }
    unfold id_le in Hle.
    destruct (decide (_id d = _id last_doc)) as [Heq|]; [|lia].
    assert (d = last_doc) as ->.
    { apply (find_unique_id src); [| |done].
      - apply Hin. rewrite Hsplit. set_solver.
      - apply Hin. rewrite Hsplit. set_solver. }
    rewrite Hsplit in Hnd. apply NoDup_app in Hnd as (_ & Hdisj & _).
    by destruct (Hdisj last_doc Hlast). }
  split; [done|]. split.
  { apply NoDup_fmap_2_strong.
    - intros a b Ha Hb. apply (find_unique_id src); apply Hin;
        rewrite Hsplit; set_solver.
    - rewrite Hsplit in Hnd. by apply NoDup_app in Hnd as (? & _ & _). }
  split.
  { intros d Hd. assert (d ∈ sorted) as Hds by (rewrite Hsplit; set_solver).
    apply Hin in Hds as [? ?]. split; [done|]. split; [done|by apply Hmax]. }
  split.
  { intros d Hd Hq Hle. assert (d ∈ sorted) as Hds by (by apply Hin).
    rewrite Hsplit in Hds. apply elem_of_app in Hds as [|Hds]; [done|].
    apply Hrest in Hds. lia. }
  assert (drop n sorted ≡ₚ find_query src (QIdGt (_id last_doc))) as Hdrop.
  { apply NoDup_Permutation.
    - rewrite Hsplit in Hnd. by apply NoDup_app in Hnd as (_ & _ & ?).
    - apply NoDup_find_query.
    - intros d. rewrite elem_of_find_query. cbn. rewrite N.ltb_lt. split.
      + intros Hd. split; [|by apply Hrest].
        apply Hin. rewrite Hsplit. set_solver.
      + intros [Hd Hlt].
        assert (matches q d = true) as Hq.
        { destruct q as [|k]; [done|]. cbn. apply N.ltb_lt.
          assert (last_doc ∈ sorted) as Hl by (rewrite Hsplit; set_solver).
          apply Hin in Hl as [_ Hl]. cbn in Hl. apply N.ltb_lt in Hl. lia. }
        assert (d ∈ sorted) as Hds by (by apply Hin).
        rewrite Hsplit in Hds. apply elem_of_app in Hds as [Hds|]; [|done].
        apply Hmax in Hds. lia. }
  rewrite <- Hdrop, <- Hperm. rewrite Hsplit at 2. rewrite length_app. lia.
Qed.

Lemma find_sorted_nil (src : collection) (q : query) (n : nat) :
  (0 < n)%nat → find_sorted src q n = [] → find_query src q = [].
Proof.
  intros Hn Hnil. unfold find_sorted in Hnil. fold (find_query src q) in Hnil.
  apply Permutation_nil_r. rewrite <- (merge_sort_Permutation id_le).
  destruct (merge_sort id_le (find_query src q)); [done|].
  destruct n; [lia|done].
Qed.

Lemma verification_errors_none (docs : list document) (dest : collection) :
  (∀ d, d ∈ docs → dest !! _id d = Some (fields d) ∧ ∃ h, doc_hash d = Ok h) →
  CollectionWorker.verification_errors docs dest = Ok [].
Proof.
  induction docs as [|d docs IH]; intros Hall; [done|].
  cbn. destruct (Hall d) as [Hd [h Hh]]; [set_solver|].
  unfold find_one. rewrite Hd. cbn.
  replace {| _id := _id d; fields := fields d |} with d by by destruct d.
  rewrite Hh. cbn. rewrite IH by (intros; apply Hall; set_solver). cbn.
  by rewrite decide_False by (intros Hne; by apply Hne).
Qed.

(** X14: right after the bulk upsert of a batch, [verify_batch] finds
    nothing to report, provided the documents have distinct ids and can be
    hashed: the per-batch verification passes on whatever the batch wrote. *)
Theorem verify_batch_after_write (docs : list document) (dest : collection) :
  NoDup (_id <$> docs) →
  (∀ d, d ∈ docs → ∃ h, doc_hash d = Ok h) →
  CollectionWorker.verify_batch docs
    (bulk_write dest ((λ doc, ReplaceOne doc true) <$> docs)) = Ok true.
Proof.
  intros Hnd Hhash. unfold CollectionWorker.verify_batch.
  rewrite verification_errors_none; [done|].
  intros d Hd. split; [|by apply Hhash].
  by apply (bulk_write_upserts dest docs Hnd).
Qed.

Lemma migrate_loop_spec (fuel batch : nat) (clock : nat → value)
    (src : collection) (name : string) (q : query)
    (st : CollectionWorker.run_state) :
  (0 < batch)%nat →
  (∀ d, d ∈ find src → ∃ h, doc_hash d = Ok h) →
  (length (find_query src q) < fuel)%nat →
  ∃ st',
    CollectionWorker.migrate_loop fuel batch clock src name q st
    = Some (Ok st')
    ∧ (∀ d, d ∈ find src → matches q d = true →
            CollectionWorker.dest st' !! _id d = Some (fields d))
    ∧ (∀ k, (∀ d, d ∈ find src → _id d = k → matches q d = false) →
            CollectionWorker.dest st' !! k = CollectionWorker.dest st !! k)
    ∧ (CollectionWorker.total_migrated st'
       = CollectionWorker.total_migrated st + length (find_query src q))%nat
    ∧ (find_query src q = [] → st' = st)
    ∧ (find_query src q ≠ [] →
       ∃ last_doc ts,
         last_doc ∈ find src ∧ matches q last_doc = true
         ∧ (∀ d, d ∈ find src → matches q d = true →
                 (_id d ≤ _id last_doc)%N)
         ∧ CollectionWorker.files st' !! CollectionWorker.checkpoint_path name
           = Some (Text (jobject
                [("last_id", VStr (oid_str (_id last_doc)));
                 ("count",
                  VInt (Z.of_nat (CollectionWorker.total_migrated st')));
                 ("timestamp", ts)]))).
Proof.
  intros Hbatch Hhash. revert q st.
  induction fuel as [|fuel IH]; intros q st Hfuel; [lia|].
  cbn [CollectionWorker.migrate_loop].
  destruct (find_sorted src q batch) as [|first others] eqn:Hb.
  - pose proof (find_sorted_nil _ _ _ Hbatch Hb) as Hnil.
    exists st. split; [done|]. split.
    { intros d Hd Hq.
      assert (d ∈ find_query src q) as Hin by (by apply elem_of_find_query).
      rewrite Hnil in Hin. by apply elem_of_nil in Hin. }
    split; [done|]. split; [rewrite Hnil; cbn; lia|]. split; done.
  - destruct (batch_spec src q batch first others Hb)
      as (Hlast & Hnd & Hin & Hcover & Hcount).
    set (docs := first :: others) in *.
    set (last_doc := List.last others first) in *.
    assert (length docs = S (length others)) as Hlen by done.
    rewrite verify_batch_after_write;
      [|done|intros d Hd; apply Hhash; by apply Hin].
    set (st1 := {| CollectionWorker.files := _ |}).
    destruct (IH (QIdGt (_id last_doc)) st1)
      as (st' & Hrun & Hcopied & Hkept & Htotal & Hsame & Hckpt); [lia|].
    exists st'. split; [done|].
    destruct (Hin last_doc Hlast) as (Hlsrc & Hlq & _).
    assert (∀ d, matches (QIdGt (_id last_doc)) d = true → d ∈ find src →
                 matches q d = true) as Hmono.
    { intros d Hd _. destruct q as [|k]; [done|]. cbn in *.
      apply N.ltb_lt in Hd, Hlq. apply N.ltb_lt. lia. }
    split.
    { intros d Hd Hq.
      destruct (matches (QIdGt (_id last_doc)) d) eqn:Hq'; [by apply Hcopied|].
      rewrite Hkept.
      - apply (bulk_write_upserts (CollectionWorker.dest st) docs Hnd).
        apply Hcover; [done|done|]. cbn in Hq'. apply N.ltb_ge in Hq'. lia.
      - intros d' Hd' Hid.
        by rewrite (find_unique_id src d' d Hd' Hd Hid). }
    split.
    { intros k Hk. rewrite Hkept.
      - apply (bulk_write_upserts (CollectionWorker.dest st) docs Hnd).
        intros (d & Hid & Hd)%list_elem_of_fmap.
        destruct (Hin d Hd) as (Hd1 & Hd2 & _).
        rewrite (Hk d Hd1 (eq_sym Hid)) in Hd2. done.
      - intros d Hd Hid.
        destruct (matches (QIdGt (_id last_doc)) d) eqn:Hq'; [|done].
        rewrite <- (Hk d Hd Hid). symmetry. by apply Hmono. }
    split; [rewrite Htotal; cbn; lia|].
    split.
    { intros Hnil.
      assert (first ∈ find_query src q) as Hf.
      { apply elem_of_find_query.
        destruct (Hin first) as (? & ? & _); [apply list_elem_of_here|done]. }
      rewrite Hnil in Hf. by apply elem_of_nil in Hf. }
    intros _.
    destruct (decide (find_query src (QIdGt (_id last_doc)) = [])) as [Hnil|Hne].
    + rewrite (Hsame Hnil). exists last_doc. eexists.
      split; [done|]. split; [done|]. split.
      { intros d Hd Hq.
        destruct (N.le_gt_cases (_id d) (_id last_doc)) as [|Hgt]; [done|].
        assert (d ∈ find_query src (QIdGt (_id last_doc))) as Hd'.
        { apply elem_of_find_query. split; [done|]. cbn. by apply N.ltb_lt. }
        rewrite Hnil in Hd'. by apply elem_of_nil in Hd'. }
      cbn. apply temp_then_rename_atomic.
    + destruct (Hckpt Hne) as (last' & ts & Hl1 & Hl2 & Hl3 & Hl4).
      exists last', ts. split; [done|]. split; [by apply Hmono|].
      split; [|done].
      intros d Hd Hq.
      destruct (matches (QIdGt (_id last_doc)) d) eqn:Hq'; [by apply Hl3|].
      cbn in Hq', Hl2. apply N.ltb_ge in Hq'. apply N.ltb_lt in Hl2. lia.
Qed.

Lemma find_query_all (src : collection) : find_query src QAll = find src.
Proof.
  unfold find_query. generalize (find src). intros l.
  induction l as [|d l IH]; [done|]. simpl. by f_equal.
Qed.

Lemma length_find_query (src : collection) (q : query) :
  (length (find_query src q) ≤ size src)%nat.
Proof.
  unfold find_query. rewrite <- length_find. apply List.filter_length_le.
Qed.

(** X15: on a source whose documents can be hashed, with more fuel than the
    source has documents, [migrate_collection] terminates normally.  Every
    source document the resume query selects is then in the target with the
    fields of the source; ids the query selects no source document for are
    as they were; [total_migrated] is the number of selected documents.  So
    if the documents the query leaves out were already in the target, the
    whole source is in the target afterwards.  When at least one document
    was selected, the checkpoint on disk holds the greatest source id as
    [last_id] and, as [count], the number of documents copied by this run,
    whatever count the file held before. *)
Theorem bulk_run_copies_selected (fuel : nat) (clock : nat → value)
    (src target : collection) (σ : fs) (name : string) (query : query) :
  (last_id ← CollectionWorker.load_checkpoint σ name;
   CollectionWorker.resume_query last_id) = Ok query →
  (∀ d, d ∈ find src → ∃ h, doc_hash d = Ok h) →
  (size src < fuel)%nat →
  ∃ st,
    CollectionWorker.migrate_collection fuel clock src target σ name
    = Some (Ok st)
    ∧ (∀ d, d ∈ find src → matches query d = true →
            CollectionWorker.dest st !! _id d = Some (fields d))
    ∧ (∀ k, (∀ d, d ∈ find src → _id d = k → matches query d = false) →
            CollectionWorker.dest st !! k = target !! k)
    ∧ CollectionWorker.total_migrated st = length (find_query src query)
    ∧ ((∀ d, d ∈ find src → matches query d = false →
             target !! _id d = Some (fields d)) →
       src ⊆ CollectionWorker.dest st)
    ∧ (find_query src query ≠ [] →
       ∃ last_doc ts,
         last_doc ∈ find src
         ∧ (∀ d, d ∈ find src → (_id d ≤ _id last_doc)%N)
         ∧ CollectionWorker.files st !! CollectionWorker.checkpoint_path name
           = Some (Text (jobject
                [("last_id", VStr (oid_str (_id last_doc)));
                 ("count", VInt (Z.of_nat (length (find_query src query))));
                 ("timestamp", ts)]))).
Proof.
  intros Hquery Hhash Hfuel. unfold CollectionWorker.migrate_collection.
  rewrite Hquery.
  edestruct (migrate_loop_spec fuel BATCH_SIZE clock src name query)
    as (st & Hrun & Hcopied & Hkept & Htotal & _ & Hckpt);
    [unfold BATCH_SIZE; lia|done|pose proof (length_find_query src query); lia|].
  exists st. split; [exact Hrun|]. split; [done|]. split; [done|].
  split; [done|].
  split; [|intros Hne;
           destruct (Hckpt Hne) as (last_doc & ts & Hl1 & Hl2 & Hl3 & Hl4);
           exists last_doc, ts; split; [done|]; split;
           [|by rewrite Hl4, Htotal];
           intros d Hd;
           destruct (matches query d) eqn:Hq; [by apply Hl3|];
           destruct query as [|k]; [done|]; cbn in Hq, Hl2;
           apply N.ltb_ge in Hq; apply N.ltb_lt in Hl2; lia].
  intros Hrest. apply map_subseteq_spec. intros k f Hk.
  assert ({| _id := k; fields := f |} ∈ find src) as Hd
    by (by apply find_elem_of).
  destruct (matches query {| _id := k; fields := f |}) eqn:Hq.
  - by apply (Hcopied _ Hd).
  - rewrite Hkept.
    + by apply (Hrest _ Hd).
    + intros d' Hd' Hid.
      by rewrite (find_unique_id src d' {| _id := k; fields := f |} Hd' Hd Hid).
Qed.

(** X16: a run that starts without a checkpoint file copies the whole
    source.  Afterwards the target contains every source document, target
    documents with other ids are untouched, and, unless the source is empty,
    the checkpoint on disk holds the greatest source id as [last_id] and the
    number of source documents as [count].  On an empty source nothing is
    written at all. *)
Theorem fresh_bulk_run_mirrors_source (fuel : nat) (clock : nat → value)
    (src target : collection) (σ : fs) (name : string) :
  σ !! CollectionWorker.checkpoint_path name = None →
  (∀ d, d ∈ find src → ∃ h, doc_hash d = Ok h) →
  (size src < fuel)%nat →
  ∃ st,
    CollectionWorker.migrate_collection fuel clock src target σ name
    = Some (Ok st)
    ∧ src ⊆ CollectionWorker.dest st
    ∧ (∀ k, src !! k = None → CollectionWorker.dest st !! k = target !! k)
    ∧ CollectionWorker.total_migrated st = size src
    ∧ (src = ∅ → CollectionWorker.files st = σ)
    ∧ (src ≠ ∅ →
       ∃ last_doc ts,
         last_doc ∈ find src
         ∧ (∀ d, d ∈ find src → (_id d ≤ _id last_doc)%N)
         ∧ CollectionWorker.files st !! CollectionWorker.checkpoint_path name
           = Some (Text (jobject
                [("last_id", VStr (oid_str (_id last_doc)));
                 ("count", VInt (Z.of_nat (size src)));
                 ("timestamp", ts)]))).
Proof.
  intros Hfile Hhash Hfuel. unfold CollectionWorker.migrate_collection.
  assert (CollectionWorker.load_checkpoint σ name = Ok VNone) as ->
    by (unfold CollectionWorker.load_checkpoint; by rewrite Hfile).
  unfold mbind, result_bind, rbind, CollectionWorker.resume_query.
  cbn [truthy].
  assert (find_query src QAll = find src) as Hall.
  { apply find_query_all. }
  edestruct (migrate_loop_spec fuel BATCH_SIZE clock src name QAll)
    as (st & Hrun & Hcopied & Hkept & Htotal & Hsame & Hckpt);
    [unfold BATCH_SIZE; lia|done|rewrite Hall, length_find; lia|].
  exists st. split; [exact Hrun|]. rewrite Hall in *.
  split.
  { apply map_subseteq_spec. intros k f Hk.
    apply (Hcopied {| _id := k; fields := f |}); [by apply find_elem_of|done]. }
  split.
  { intros k Hk. rewrite Hkept; [done|]. intros d Hd Hid.
    apply find_elem_of in Hd. congruence. }
  split; [rewrite Htotal, length_find; cbn; lia|].
  split.
  { intros ->. rewrite Hsame; [done|]. unfold find.
    by rewrite map_to_list_empty. }
  intros Hne.
  destruct Hckpt as (last_doc & ts & Hl1 & _ & Hl3 & Hl4).
  { intros Hnil. apply Hne. apply map_size_empty_inv.
    by rewrite <- length_find, Hnil. }
  exists last_doc, ts. split; [done|]. split; [by intros d Hd; apply Hl3|].
  rewrite Hl4, Htotal, length_find. cbn. done.
Qed.
End BulkLoader.

Section Connecting.
Import CollectionWorker.

Lemma sum_list_snoc (l : list nat) (x : nat) :
  sum_list (l ++ [x]) = (sum_list l + x)%nat.
Proof. induction l as [|y l IH]; cbn; [lia|]. rewrite IH. lia. Qed.

Lemma get_mongo_client_from_failures (k start : nat)
    (connect : nat → attempt_outcome) (rest : list nat) :
  (start + k ≤ RETRY_LIMIT - 1)%nat →
  (∀ i, (start ≤ i < start + k)%nat → connect i = ConnectionFailure) →
  get_mongo_client_from (seq start k ++ rest) connect
  = ((get_mongo_client_from rest connect).1,
     (((λ i, (RETRY_DELAY * (i + 1))%nat) <$> seq start k)
        ++ (get_mongo_client_from rest connect).2)%list).
Proof.
  revert start. induction k as [|k IH]; intros start Hle Hfail.
  - cbn. by destruct (get_mongo_client_from rest connect).
  - cbn [seq app get_mongo_client_from]. rewrite Hfail by lia.
    assert ((start <? RETRY_LIMIT - 1)%nat = true) as ->
      by (apply Nat.ltb_lt; lia).
    rewrite IH by (try lia; intros; apply Hfail; lia).
    done.
Qed.

(** X17: [get_mongo_client] makes at most [RETRY_LIMIT] = 5 attempts.  If
    the first [k] fail with [ConnectionFailure] and the next one connects, it
    returns the client after sleeping 2, 4, ... seconds, [k (k + 1)] in
    all; if instead the next one raises another exception, that exception
    escapes at once; if all five fail it raises after the four sleeps of 2,
    4, 6 and 8 seconds, without sleeping after the last attempt. *)
Theorem get_mongo_client_backoff (connect : nat → attempt_outcome) (k : nat) :
  (k < RETRY_LIMIT)%nat →
  (∀ i, (i < k)%nat → connect i = ConnectionFailure) →
  let sleeps := (λ i, (RETRY_DELAY * (i + 1))%nat) <$> seq 0 k in
  sum_list sleeps = (k * (k + 1))%nat
  ∧ (connect k = Connects →
     get_mongo_client connect = (Ok (Some tt), sleeps))
  ∧ (∀ e, connect k = OtherException e →
          get_mongo_client connect = (Raise e, sleeps))
  ∧ (k = (RETRY_LIMIT - 1)%nat → connect k = ConnectionFailure →
     get_mongo_client connect = (Raise PyMongoError, [2; 4; 6; 8]%nat)).
Proof.
  intros Hk Hfail sleeps.
  assert (seq 0 RETRY_LIMIT
          = (seq 0 k ++ k :: seq (S k) (RETRY_LIMIT - S k))%list) as Hseq.
  { replace RETRY_LIMIT with (k + S (RETRY_LIMIT - S k))%nat at 1 by lia.
    by rewrite seq_app. }
  assert (∀ rest, get_mongo_client_from (seq 0 k ++ rest) connect
                  = ((get_mongo_client_from rest connect).1,
                     (sleeps ++ (get_mongo_client_from rest connect).2)%list))
    as Hprefix.
  { intros rest. apply get_mongo_client_from_failures; [lia|].
    intros i Hi. apply Hfail. lia. }
  split.
  { subst sleeps. clear. induction k as [|k IH]; [done|].
    rewrite seq_S, fmap_app. simpl (_ <$> [_]).
    rewrite sum_list_snoc, IH. unfold RETRY_DELAY. lia. }
  unfold get_mongo_client. rewrite Hseq, Hprefix.
  cbn [get_mongo_client_from]. split; [|split].
  - intros ->. cbn. by rewrite app_nil_r.
  - intros e ->. cbn. by rewrite app_nil_r.
  - intros -> ->. cbn. reflexivity.
Qed.
End Connecting.

Section Sampling.
Import Mongo.

(** X18: the positions [cdc_migrate_collection] verifies after a batch of
    [n > 0] documents are [min(10, n)] distinct positions inside the batch,
    starting with the first document: the guard [doc_index < len(docs)]
    never discards one. *)
Theorem verification_indices_in_bounds (n : nat) :
  (0 < n)%nat →
  length (CdcWorker.verification_indices n) = (10 `min` n)%nat
  ∧ (∀ i, i ∈ CdcWorker.verification_indices n → (i < n)%nat)
  ∧ NoDup (CdcWorker.verification_indices n)
  ∧ CdcWorker.verification_indices n !! 0%nat = Some 0%nat.
Proof.
  intros Hn. unfold CdcWorker.verification_indices.
  set (s := (10 `min` n)%nat).
  set (f := λ i, if (1 <? s)%nat then (i * (n / s))%nat else 0%nat).
  assert (0 < s ≤ n)%nat as Hs by (unfold s; lia).
  assert (∀ i, (i < s)%nat → (f i < n)%nat) as Hf.
  { intros i Hi. unfold f. destruct (1 <? s)%nat; [|lia].
    pose proof (Nat.Div0.mul_div_le n s). nia. }
  assert (List.filter (λ doc_index, (doc_index <? n)%nat) (f <$> seq 0 s)
          = f <$> seq 0 s) as ->.
  { apply forallb_filter_id. apply forallb_forall. intros x Hx.
    apply list_elem_of_In, list_elem_of_fmap in Hx as (i & -> & Hi).
    apply elem_of_seq in Hi. apply Nat.ltb_lt, Hf. lia. }
  split; [by rewrite length_fmap, length_seq|]. split.
  { intros x (i & -> & Hi)%list_elem_of_fmap. apply elem_of_seq in Hi.
    apply Hf. lia. }
  split.
  { apply NoDup_fmap_2_strong; [|apply NoDup_seq].
    intros i j Hi Hj. apply elem_of_seq in Hi, Hj. unfold f.
    destruct (1 <? s)%nat eqn:H1; [|apply Nat.ltb_ge in H1; lia].
    assert (0 < n / s)%nat by (apply Nat.div_str_pos; lia). nia. }
  destruct s as [|s']; [lia|]. cbn. unfold f. by destruct (1 <? _)%nat.
Qed.
End Sampling.

Section SampleVerdict.
Context `{Runtime}.
Import Mongo Verify.

Lemma sample_loop_never_checks (positions : list nat) (src tgt : collection)
    (mismatches : nat) :
  sample_loop positions src tgt mismatches 0 = Raise TypeError
  ∨ ∃ m, sample_loop positions src tgt mismatches 0 = Ok (m, O).
Proof.
  revert mismatches. induction positions as [|i rest IH]; intros m; cbn.
  - eauto.
  - destruct (find src !! i) as [src_doc|]; [|apply IH].
    destruct (find_one tgt (_id src_doc)); [by left|apply IH].
Qed.

(** X19: for documents whose [_id] is an ObjectId, [verify_document_sample]
    answers true only for an empty source collection: the default JSON
    encoder raises on the first sampled document found in the target, and
    when none is found nothing was checked. *)
Theorem verify_document_sample_iff_empty (src tgt : collection)
    (sample_size : nat) :
  verify_document_sample src tgt sample_size = true ↔ src = ∅.
Proof.
  unfold verify_document_sample, count_documents.
  destruct (size src =? 0)%nat eqn:Hsize.
  - apply Nat.eqb_eq, map_size_empty_iff in Hsize. done.
  - apply Nat.eqb_neq in Hsize. split; [|by intros ->].
    destruct (sample_size =? 0)%nat; [done|].
    destruct (sample_loop_never_checks
                (sample_positions (size src) sample_size) src tgt 0)
      as [->|[m ->]]; done.
Qed.

(** X20: with the verdict of [verify_document_sample] as its fourth
    check, [verify_collection] can report [OK] only for an empty source
    collection. *)
Theorem status_ok_only_for_empty_source (name : string)
    (names : result (list string)) (counts : result (Z * Z))
    (src_indexes tgt_indexes : result indexes) (src tgt : collection) :
  status (verify_collection name names counts src_indexes tgt_indexes
            (verify_document_sample src tgt 100)) = Some "OK" →
  src = ∅.
Proof.
  intros Hok. apply (verify_document_sample_iff_empty src tgt 100).
  unfold verify_collection in Hok.
  destruct names as [names|]; [|done].
  destruct (bool_decide (name ∈ names)); [|done]. cbn in Hok.
  destruct (verify_document_sample src tgt 100); [done|].
  rewrite !andb_false_r in Hok. done.
Qed.
End SampleVerdict.

Section SamplePositions.
Import Verify.

(** X21: for a non-empty source and a positive [sample_size],
    [verify_document_sample] visits [min(total_count, sample_size)]
    positions, evenly strided from 0, all inside the collection. *)
Theorem sample_positions_in_bounds (total_count sample_size : nat) :
  (0 < sample_size)%nat →
  length (sample_positions total_count sample_size)
  = (total_count `min` sample_size)%nat
  ∧ ∀ i, i ∈ sample_positions total_count sample_size → (i < total_count)%nat.
Proof.
  intros Hss. unfold sample_positions.
  set (d := (total_count / sample_size)%nat).
  set (skip := (1 `max` d)%nat).
  set (stop := (total_count `min` (sample_size * skip))%nat).
  assert ((stop + skip - 1) / skip = total_count `min` sample_size
          ∧ (total_count `min` sample_size) * skip ≤ total_count)%nat
    as [Hcount Hfit].
  { destruct (decide (total_count < sample_size)%nat) as [Hlt|Hge].
    - assert (d = 0%nat) as Hd by (by apply Nat.div_small).
      assert (skip = 1%nat) as -> by (unfold skip; lia).
      subst stop. rewrite Nat.div_1_r. lia.
    - assert (1 ≤ d)%nat as Hd
        by (apply Nat.div_le_lower_bound; lia).
      assert (skip = d) as -> by (unfold skip; lia).
      pose proof (Nat.Div0.mul_div_le total_count sample_size) as Hle.
      fold d in Hle.
      assert (stop = (sample_size * d)%nat) as -> by (unfold stop; lia).
      split; [|lia].
      replace (sample_size * d + d - 1)%nat
        with (sample_size * d + (d - 1))%nat by lia.
      rewrite Nat.div_add_l by lia.
      rewrite (Nat.div_small (d - 1) d) by lia. lia. }
  rewrite length_fmap, length_seq. split; [done|].
  intros i (j & -> & Hj)%list_elem_of_fmap. apply elem_of_seq in Hj.
  rewrite Hcount in Hj. assert (0 < skip)%nat by (unfold skip; lia). nia.
Qed.

Lemma failed_ok (rs : list results) (fs : list results) :
  failed rs = Ok fs →
  (fs = [] ↔ Forall (λ r, status r = Some "OK") rs).
Proof.
  revert fs. induction rs as [|r rs IH]; intros fs; cbn.
  - intros [= <-]. split; [constructor|done].
  - destruct (status r) as [s|] eqn:Hs; [|done].
    destruct (failed rs) as [others|]; cbn; [|done].
    destruct (String.eqb_spec s "OK") as [->|Hne]; intros [= <-].
    + rewrite (IH others eq_refl). split.
      * by constructor.
      * by intros [_ ?]%Forall_cons.
    + split; [done|]. intros [Hr _]%Forall_cons. congruence.
Qed.

(** X22: the verifier's [main] exits with 0 exactly when every result has
    status [OK]; a result without a status (a collection missing in the
    target) makes it exit with 1 through the [KeyError]. *)
Theorem main_exit_code (rs : list results) :
  (main rs = 0 ↔ Forall (λ r, status r = Some "OK") rs)
  ∧ (main rs = 0 ∨ main rs = 1)
  ∧ (∀ r, r ∈ rs → status r = None → main rs = 1).
Proof.
  unfold main. split; [|split].
  - destruct (failed rs) as [fs|e] eqn:Hf.
    + rewrite <- (failed_ok rs fs Hf). by destruct fs.
    + split; [done|]. intros Hall. exfalso.
      induction Hall as [|r rs Hr _ IH]; cbn in Hf; [done|].
      rewrite Hr in Hf. destruct (failed rs); cbn in Hf; [done|]. by apply IH.
  - destruct (failed rs) as [[|? ?]|]; auto.
  - intros r Hr Hnone.
    assert (failed rs = Raise KeyError) as ->; [|done].
    induction rs as [|r' rs IH]; [by apply elem_of_nil in Hr|]. cbn.
    apply elem_of_cons in Hr as [<-|Hr]; [by rewrite Hnone|].
    destruct (status r'); [|done]. by rewrite (IH Hr).
Qed.
End SamplePositions.

Section WorkerThread.

(** X23: in [cdc_worker_thread] every cycle up to and including the first
    one that returns runs with [force_refresh=True]; the cycles after it run
    with the configured value. *)
Theorem first_cycles_force_refresh (force_refresh : bool)
    (returns : list bool) :
  length (CdcWorker.worker_cycles true force_refresh returns) = length returns
  ∧ ∀ i flag,
      CdcWorker.worker_cycles true force_refresh returns !! i = Some flag →
      flag = if existsb id (take i returns) then force_refresh else true.
Proof.
  assert (∀ first_cycle,
            length (CdcWorker.worker_cycles first_cycle force_refresh returns)
            = length returns
            ∧ ∀ i flag,
                CdcWorker.worker_cycles first_cycle force_refresh returns !! i
                = Some flag →
                flag = if first_cycle && negb (existsb id (take i returns))
                       then true else force_refresh) as Hgen.
  { induction returns as [|r rest IH]; intros first_cycle; [done|].
    cbn [CdcWorker.worker_cycles length]. split; [by rewrite (proj1 (IH _))|].
    intros [|i] flag; cbn.
    - intros [= <-]. by destruct first_cycle.
    - intros Hi. apply (proj2 (IH _)) in Hi as ->.
      destruct r, first_cycle; cbn; done. }
  split; [apply Hgen|]. intros i flag Hi.
  apply (proj2 (Hgen true)) in Hi as ->. cbn.
  by destruct (existsb id (take i returns)).
Qed.
End WorkerThread.

Section TargetedPass.
Context `{Runtime}.
Import Mongo Files.

Lemma bulk_write_replace_existing (c : collection) (docs : list document) :
  (∀ d, d ∈ docs → is_Some (c !! _id d)) →
  bulk_write c ((λ d, ReplaceOne d false) <$> docs)
  = bulk_write c ((λ d, ReplaceOne d true) <$> docs).
Proof.
  revert c. induction docs as [|d docs IH]; intros c Hex; [done|].
  rewrite !fmap_cons, !bulk_write_cons, apply_op_upsert.
  destruct (Hex d) as [f Hf]; [set_solver|].
  assert (apply_op c (ReplaceOne d false) = <[_id d := fields d]> c) as ->
    by (cbn; by rewrite Hf).
  apply IH. intros d' Hd'. apply lookup_insert_is_Some'. right.
  apply Hex. set_solver.
Qed.

Lemma targeted_ops_spec (src : collection) (target_docs : list document)
    (ops : list write_op) :
  CdcWorker.targeted_ops src target_docs = Ok ops →
  ∃ replaced,
    ops = (λ d, ReplaceOne d false) <$> replaced
    ∧ (_id <$> replaced) `sublist_of` (_id <$> target_docs)
    ∧ (∀ t d hs ht,
         t ∈ target_docs → find_one src (_id t) = Some d →
         doc_hash d = Ok hs → doc_hash t = Ok ht → hs ≠ ht →
         d ∈ replaced).
Proof.
  revert ops. induction target_docs as [|t rest IH]; intros ops; cbn.
  - intros [= <-]. exists []. split; [done|]. split; [done|].
    intros ? ? ? ? []%elem_of_nil.
  - destruct (find_one src (_id t)) as [d|] eqn:Hd.
    + assert (_id d = _id t) as Hid.
      { unfold find_one in Hd. destruct (src !! _id t); [|done].
        by injection Hd as <-. }
      destruct (doc_hash d) as [hs|] eqn:Hhs; cbn; [|done].
      destruct (doc_hash t) as [ht|] eqn:Hht; cbn; [|done].
      destruct (CdcWorker.targeted_ops src rest) as [ops'|]; cbn; [|done].
      destruct (IH ops' eq_refl) as (replaced & -> & Hsub & Hall).
      intros [= <-]. destruct (bool_decide (hs ≠ ht)) eqn:Hne.
      * exists (d :: replaced). split; [done|]. split.
        { rewrite !fmap_cons, Hid. by constructor. }
        intros t' d' hs' ht' [->|Ht']%elem_of_cons Hd' Hs' Ht'' Hne'.
        -- rewrite Hd in Hd'. injection Hd' as <-. set_solver.
        -- apply elem_of_cons. right. by eapply Hall.
      * exists replaced. split; [done|]. split; [by constructor|].
        intros t' d' hs' ht' [->|Ht']%elem_of_cons Hd' Hs' Ht'' Hne'.
        -- rewrite Hd in Hd'. injection Hd' as <-.
           rewrite Hhs in Hs'. rewrite Hht in Ht''.
           injection Hs' as <-. injection Ht'' as <-.
           by apply bool_decide_eq_false in Hne.
        -- by eapply Hall.
    + intros Hops. destruct (IH ops Hops) as (replaced & -> & Hsub & Hall).
      exists replaced. split; [done|]. split; [by constructor|].
      intros t' d' hs' ht' [->|Ht']%elem_of_cons Hd' Hs' Ht'' Hne'.
      * by rewrite Hd in Hd'.
      * by eapply Hall.
Qed.

(** X24: the force-refresh pass only replaces documents that the target
    already has: the set of ids in the target is unchanged.  Every one of
    the first 500 target documents whose source counterpart hashes
    differently ends up with the fields of the source, whatever the two
    [updatedAt] say; ids absent from the source are untouched; and the
    number of replaced documents is added to the [updates] total of the
    checkpoint. *)
Theorem targeted_check_overwrites (src tgt : collection) (σ : fs)
    (name dir now : string) (tgt' : collection) (σ' : fs) (n : nat) :
  CdcWorker.targeted_check src tgt σ name dir now = Ok (tgt', σ', n) →
  dom tgt' = dom tgt
  ∧ (∀ t d hs ht,
       t ∈ take 500 (find tgt) → find_one src (_id t) = Some d →
       doc_hash d = Ok hs → doc_hash t = Ok ht → hs ≠ ht →
       tgt' !! _id t = Some (fields d))
  ∧ (∀ k, src !! k = None → tgt' !! k = tgt !! k)
  ∧ (Spec.counters_ok σ (CdcWorker.checkpoint_path dir name) →
     Spec.persisted_total σ' (CdcWorker.checkpoint_path dir name) "updates"
     = Spec.persisted_total σ (CdcWorker.checkpoint_path dir name) "updates"
       + Z.of_nat n
     ∧ Spec.persisted_total σ' (CdcWorker.checkpoint_path dir name)
         "deletions"
       = Spec.persisted_total σ (CdcWorker.checkpoint_path dir name)
           "deletions").
Proof.
  unfold CdcWorker.targeted_check.
  set (target_docs := take 500 (find tgt)).
  destruct (CdcWorker.targeted_ops src target_docs) as [ops|] eqn:Hops;
    cbn; [|done].
  destruct (targeted_ops_spec _ _ _ Hops) as (replaced & Hopsr & Hsub & Hall).
  assert (NoDup (_id <$> replaced)) as Hnd.
  { eapply sublist_NoDup; [|exact Hsub].
    eapply sublist_NoDup; [apply (NoDup_ids_find tgt)|].
    apply fmap_sublist, sublist_take. }
  assert (∀ d, d ∈ replaced → is_Some (tgt !! _id d)) as Hex.
  { intros d Hd.
    assert (_id d ∈ _id <$> target_docs) as Hin.
    { eapply elem_of_sublist; [|exact Hsub]. by apply list_elem_of_fmap_2. }
    apply list_elem_of_fmap in Hin as (t & -> & Ht).
    apply subseteq_take, find_elem_of in Ht. eauto. }
  assert (∀ d, d ∈ replaced → find_one src (_id d) = Some d) as Hsrc'.
  { clear -Hops Hopsr. revert ops replaced Hops Hopsr.
    induction target_docs as [|t rest IH]; intros ops replaced; cbn.
    - intros [= <-] Hr. destruct replaced; [|done]. by intros ? ?%elem_of_nil.
    - destruct (find_one src (_id t)) as [d0|] eqn:Hd0;
        [|by apply IH].
      destruct (doc_hash d0); cbn; [|done].
      destruct (doc_hash t); cbn; [|done].
      destruct (CdcWorker.targeted_ops src rest) as [ops'|] eqn:Hr;
        cbn; [|done].
      intros [= <-]. destruct (bool_decide _).
      + destruct replaced as [|d1 replaced]; [done|].
        rewrite fmap_cons. intros [= <- Hrest].
        intros d [->|Hd]%elem_of_cons; [|by eapply IH].
        unfold find_one in *. destruct (src !! _id t) eqn:E; [|done].
        injection Hd0 as <-. cbn. by rewrite E.
      + intros Hrest. by eapply IH. }
  set (tgt1 := bulk_write tgt ops).
  assert (tgt1 = bulk_write tgt ((λ d, ReplaceOne d true) <$> replaced))
    as Htgt1 by (unfold tgt1; rewrite Hopsr; by apply bulk_write_replace_existing).
  destruct (bulk_write_upserts tgt replaced Hnd) as [Hin Hout].
  rewrite <- Htgt1 in Hin, Hout.
  assert ((tgt', σ', n)
          = (tgt1,
             match ops with
             | [] => σ
             | _ => CdcWorker.save_checkpoint σ name VNone VNone
                      (Z.of_nat (length ops)) 0 dir now
             end, length ops) →
          dom tgt' = dom tgt
          ∧ (∀ t d hs ht,
               t ∈ target_docs → find_one src (_id t) = Some d →
               doc_hash d = Ok hs → doc_hash t = Ok ht → hs ≠ ht →
               tgt' !! _id t = Some (fields d))
          ∧ (∀ k, src !! k = None → tgt' !! k = tgt !! k)
          ∧ (Spec.counters_ok σ (CdcWorker.checkpoint_path dir name) →
             Spec.persisted_total σ' (CdcWorker.checkpoint_path dir name)
               "updates"
             = Spec.persisted_total σ (CdcWorker.checkpoint_path dir name)
                 "updates" + Z.of_nat n
             ∧ Spec.persisted_total σ' (CdcWorker.checkpoint_path dir name)
                 "deletions"
               = Spec.persisted_total σ (CdcWorker.checkpoint_path dir name)
                   "deletions")) as Hmain.
  { intros [= -> -> ->]. split; [|split; [|split]].
    - apply set_eq. intros k. rewrite !elem_of_dom.
      destruct (decide (k ∈ _id <$> replaced)) as [Hk|Hk].
      + apply list_elem_of_fmap in Hk as (d & -> & Hd).
        rewrite (Hin d Hd). split; [intros _; by apply Hex|eauto].
      + by rewrite (Hout k Hk).
    - intros t d hs ht Ht Hd Hhs Hht Hne.
      assert (d ∈ replaced) as Hr by (by eapply Hall).
      assert (_id d = _id t) as <-; [|by apply Hin].
      unfold find_one in Hd. destruct (src !! _id t); [|done].
      by injection Hd as <-.
    - intros k Hk. apply Hout.
      intros (d & -> & Hd)%list_elem_of_fmap.
      specialize (Hsrc' d Hd). unfold find_one in Hsrc'. by rewrite Hk in Hsrc'.
    - intros Hok. destruct ops as [|op ops']; [cbn; lia|].
      destruct (save_checkpoint_totals σ name dir now VNone VNone
                  (Z.of_nat (length (op :: ops'))) 0 Hok)
        as (_ & Hu & Hd & _).
      rewrite Hu, Hd. lia. }
  intros Heq. apply Hmain. destruct ops; by injection Heq as <- <- <-.
Qed.
End TargetedPass.

Section BadCheckpoints.
Context `{Runtime}.
Import Mongo Files.

(** X25: the polling [save_checkpoint] silently writes nothing when the
    file on disk parses to something that is no dictionary, or to a
    dictionary whose [updates] or [deletions] is not an integer: the
    exception of the merge is swallowed and the old file stays. *)
Theorem save_checkpoint_keeps_bad_file (σ : fs) (name dir now : string)
    (last_updated_at last_operation_time : value) (updates deletions : Z) :
  let path := CdcWorker.checkpoint_path dir name in
  let σ' := CdcWorker.save_checkpoint σ name last_updated_at
              last_operation_time updates deletions dir now in
  (σ !! path = Some (Text JOther) → σ' = σ)
  ∧ (∀ m key v,
       σ !! path = Some (Text (JObject m)) →
       key = "updates" ∨ key = "deletions" →
       m !! key = Some v → (∀ z, v ≠ VInt z) →
       σ' = σ).
Proof.
  intros path σ'. subst σ'.
  unfold CdcWorker.save_checkpoint, CdcWorker.save_checkpoint_ops,
    CdcWorker.checkpoint_data, CdcWorker.existing_data.
  fold path. split.
  - intros Hσ. rewrite Hσ. reflexivity.
  - intros m key v Hσ Hkey Hv Hnot. rewrite Hσ. cbn.
    assert (CdcWorker.py_add v updates = Raise TypeError
            ∧ CdcWorker.py_add v deletions = Raise TypeError) as [Hu Hd].
    { destruct v; try done. by destruct (Hnot z). }
    destruct Hkey as [-> | ->]; rewrite Hv; cbn.
    + rewrite Hu. reflexivity.
    + rewrite Hd.
      destruct (CdcWorker.py_add (default (VInt 0) (m !! "updates")) updates);
        reflexivity.
Qed.

(** X26: a checkpoint file that parses to something that is no dictionary
    is not treated as absent: [load_checkpoint] of the bulk loader and of
    the polling worker and [load_resume_token] raise [AttributeError], and
    [migrate_collection] fails before it reads a document. *)
Theorem non_dictionary_checkpoint_raises (σ : fs) (name dir : string) :
  (σ !! CollectionWorker.checkpoint_path name = Some (Text JOther) →
   CollectionWorker.load_checkpoint σ name = Raise AttributeError
   ∧ ∀ fuel clock src target,
       CollectionWorker.migrate_collection fuel clock src target σ name
       = Some (Raise AttributeError))
  ∧ (σ !! CdcWorker.checkpoint_path dir name = Some (Text JOther) →
     CdcWorker.load_checkpoint σ name dir = Raise AttributeError)
  ∧ (σ !! ChangeStreamWorker.resume_token_path dir name = Some (Text JOther) →
     ChangeStreamWorker.load_resume_token σ name dir = Raise AttributeError).
Proof.
  split; [|split].
  - intros Hσ.
    assert (CollectionWorker.load_checkpoint σ name = Raise AttributeError)
      as Hload by (unfold CollectionWorker.load_checkpoint; by rewrite Hσ).
    split; [done|]. intros.
    unfold CollectionWorker.migrate_collection. by rewrite Hload.
  - intros Hσ. unfold CdcWorker.load_checkpoint. by rewrite Hσ.
  - intros Hσ. unfold ChangeStreamWorker.load_resume_token. by rewrite Hσ.
Qed.

(** X27: the bulk loader resumes only from a [last_id] that is the
    24-digit hexadecimal form of an ObjectId.  Any other non-empty string in
    the checkpoint makes [migrate_collection] fail with [InvalidId] before
    it reads a document, and an empty string is taken as no checkpoint. *)
Theorem resume_needs_object_id (σ : fs) (name : string)
    (m : gmap string value) (s : string) :
  σ !! CollectionWorker.checkpoint_path name = Some (Text (JObject m)) →
  m !! "last_id" = Some (VStr s) →
  (s ≠ "" → String.length s ≠ 24%nat →
   ∀ fuel clock src target,
     CollectionWorker.migrate_collection fuel clock src target σ name
     = Some (Raise InvalidId))
  ∧ (s = "" →
     ∀ fuel clock src target,
       CollectionWorker.migrate_collection fuel clock src target σ name
       = CollectionWorker.migrate_loop fuel BATCH_SIZE clock src name QAll
           {| CollectionWorker.files := σ;
              CollectionWorker.dest := target;
              CollectionWorker.total_migrated := 0;
              CollectionWorker.saves := [] |}).
Proof.
  intros Hσ Hm.
  assert (CollectionWorker.load_checkpoint σ name = Ok (VStr s)) as Hload.
  { unfold CollectionWorker.load_checkpoint. rewrite Hσ. cbn. by rewrite Hm. }
  split.
  - intros Hne Hlen fuel clock src target.
    unfold CollectionWorker.migrate_collection. rewrite Hload.
    unfold mbind, result_bind, rbind, CollectionWorker.resume_query.
    assert (truthy (VStr s) = true) as ->.
    { cbn. by destruct (String.eqb_spec s ""). }
    unfold ObjectId. by rewrite (proj2 (Nat.eqb_neq _ _) Hlen).
  - intros -> fuel clock src target.
    unfold CollectionWorker.migrate_collection. by rewrite Hload.
Qed.

(** X28: when the polling checkpoint cannot be read as a dictionary,
    [handle_deletes] still applies its deletes to the target and returns
    their number, but the checkpoint file is left as it was: the deletions
    are not added to any total. *)
Theorem deletes_uncounted_on_unreadable_checkpoint (src tgt : collection)
    (σ : fs) (name now : string) (last_operation_time : value)
    (force_check : bool) (f : file) :
  σ !! CdcWorker.checkpoint_path PROGRESS_DIR name = Some f →
  (∀ m, f ≠ Text (JObject m)) →
  let out := CdcWorker.handle_deletes src tgt σ name last_operation_time
               force_check now in
  out.1.2 = σ
  ∧ out.2
    = length (CdcWorker.delete_ops src
                (take (CdcWorker.sample_size src tgt force_check) (find tgt)))
  ∧ out.1.1
    = bulk_write tgt
        (CdcWorker.delete_ops src
           (take (CdcWorker.sample_size src tgt force_check) (find tgt))).
Proof.
  intros Hσ Hf out. subst out. unfold CdcWorker.handle_deletes.
  rewrite Hσ.
  assert ((json_load f ≫= λ data, get data "last_updated_at")
          = Raise JSONDecodeError
          ∨ (json_load f ≫= λ data, get data "last_updated_at")
            = Raise AttributeError) as Hread.
  { destruct f as [text|j k|[m|]]; cbn; auto. by destruct (Hf m). }
  destruct (CdcWorker.delete_ops src _) as [|op ops]; [done|].
  destruct Hread as [-> | ->]; done.
Qed.
End BadCheckpoints.

Section MoreWitnesses.
Import Mongo Files Examples.
#[local] Existing Instance example_runtime.

Lemma status_ok_iff_all_checks_witness :
  Verify.status
    (Verify.verify_collection "X" (Ok ["X"]) (Ok (10, 10)) (Ok ∅) (Ok ∅) true)
  = Some "OK".
Proof.
  destruct (status_ok_iff_all_checks "X" ["X"] (Ok (10, 10)) (Ok ∅) (Ok ∅)
              true ltac:(by left)) as (_ & _ & _ & Hok & _).
  apply Hok. split; [by exists 10, 10|done].
Defined.

Lemma worker_returns_on_mongo_error_witness :
  ∃ w sleeps,
    ChangeStreamWorker.watch_collection_changes
      ([insert_of (doc 1 "a") "t1"]
       ++ ChangeStreamWorker.Fails PyMongoError
          :: [insert_of (doc 2 "a") "t2"])%list
      (Up ∅) ∅ "X" PROGRESS_DIR "now"
    = (w, ChangeStreamWorker.Returned, [insert_of (doc 2 "a") "t2"])
    ∧ ChangeStreamWorker.effects w
      = ChangeStreamWorker.Watch VNone
        :: (ChangeStreamWorker.Sleep <$> (sleeps ++ [5000%nat])%list)
    ∧ ChangeStreamWorker.stream_token w = VStr "t1"
    ∧ ChangeStreamWorker.files w
        !! ChangeStreamWorker.resume_token_path PROGRESS_DIR "X"
      = Some (Text (jobject [("resume_token", VStr "t1");
                             ("timestamp", VStr "now")])).
Proof.
  apply (worker_returns_on_mongo_error [insert_of (doc 1 "a") "t1"]
           [insert_of (doc 2 "a") "t2"] (Up ∅) ∅ "X" PROGRESS_DIR "now"
           VNone).
  - reflexivity.
  - repeat constructor; discriminate.
Defined.

Lemma worker_counts_every_change_witness :
  ∃ w,
    ChangeStreamWorker.watch_collection_changes
      [insert_of (doc 1 "a") "t1"; ChangeStreamWorker.Idle;
       insert_of (doc 2 "a") "t2"]
      (Up ∅) ∅ "X" PROGRESS_DIR "now"
    = (w, ChangeStreamWorker.Polling, [])
    ∧ ChangeStreamWorker.processed w = 2%nat.
Proof.
  destruct (worker_counts_every_change
              [insert_of (doc 1 "a") "t1"; ChangeStreamWorker.Idle;
               insert_of (doc 2 "a") "t2"]
              (Up ∅) ∅ "X" PROGRESS_DIR "now" VNone)
    as (w & Hrun & _ & Hup).
  - reflexivity.
  - repeat constructor; discriminate.
  - exists w. split; [exact Hrun|].
    destruct (Hup ∅ eq_refl) as (Hprocessed & _). exact Hprocessed.
Defined.


Lemma cdc_checkpoint_round_trip_witness :
  CdcWorker.load_checkpoint
    (CdcWorker.save_checkpoint polled "X" (VDate jan1) (VOid 7) 3 4
       PROGRESS_DIR "now") "X" PROGRESS_DIR
  = Ok (VStr (isoformat jan1), VStr (oid_str 7)).
Proof.
  apply (cdc_checkpoint_round_trip polled "X" PROGRESS_DIR "now" (VDate jan1)
           (VOid 7) 3 4).
  vm_compute. split; right; eexists; reflexivity.
Defined.

Lemma bulk_checkpoint_round_trip_witness :
  ObjectId (VStr (oid_str 6)) = Ok 6%N.
Proof.
  destruct (bulk_checkpoint_round_trip ∅ "X" 6 6 VNone) as [Hid _].
  - reflexivity.
  - exact Hid.
Defined.

Lemma second_pass_stages_nothing_witness :
  CdcWorker.batch_operations false
    (bulk_write (collection_of [older]) [ReplaceOne newer true]) [newer]
  = Ok [].
Proof.
  apply (second_pass_stages_nothing false (collection_of [older]) [newer]
           [ReplaceOne newer true]).
  - repeat constructor. intros Hin. inversion Hin.
  - intros d _. eexists. reflexivity.
  - vm_compute. reflexivity.
Defined.

Lemma verify_batch_after_write_witness :
  CollectionWorker.verify_batch [doc 1 "a"; doc 2 "b"]
    (bulk_write ∅ ((λ d, ReplaceOne d true) <$> [doc 1 "a"; doc 2 "b"]))
  = Ok true.
Proof.
  apply (verify_batch_after_write [doc 1 "a"; doc 2 "b"] ∅).
  - apply NoDup_cons. split; [|apply NoDup_singleton].
    intros Hin. apply list_elem_of_singleton in Hin. discriminate.
  - intros d _. eexists. reflexivity.
Defined.

Lemma bulk_run_copies_selected_witness :
  ∃ st,
    CollectionWorker.migrate_collection 20 (λ _, VNone) source10 target6
      checkpoint6 "X" = Some (Ok st)
    ∧ CollectionWorker.total_migrated st = 4%nat.
Proof.
  destruct (bulk_run_copies_selected 20 (λ _, VNone) source10 target6
              checkpoint6 "X" (QIdGt 6))
    as (st & Hrun & _ & _ & Htotal & _).
  - vm_compute. reflexivity.
  - intros d _. eexists. reflexivity.
  - vm_compute. lia.
  - exists st. split; [exact Hrun|]. rewrite Htotal. vm_compute. reflexivity.
Defined.

Lemma fresh_bulk_run_mirrors_source_witness :
  ∃ st,
    CollectionWorker.migrate_collection 20 (λ _, VNone) source10 target6 ∅
      "X" = Some (Ok st)
    ∧ source10 ⊆ CollectionWorker.dest st
    ∧ CollectionWorker.total_migrated st = 10%nat.
Proof.
  destruct (fresh_bulk_run_mirrors_source 20 (λ _, VNone) source10 target6 ∅
              "X")
    as (st & Hrun & Hsub & _ & Htotal & _).
  - reflexivity.
  - intros d _. eexists. reflexivity.
  - vm_compute. lia.
  - exists st. split; [exact Hrun|]. split; [exact Hsub|].
    rewrite Htotal. vm_compute. reflexivity.
Defined.

Lemma get_mongo_client_backoff_witness :
  CollectionWorker.get_mongo_client
    (λ i, if (i <? 2)%nat then CollectionWorker.ConnectionFailure
          else CollectionWorker.Connects)
  = (Ok (Some tt), [2; 4]%nat).
Proof.
  destruct (get_mongo_client_backoff
              (λ i, if (i <? 2)%nat then CollectionWorker.ConnectionFailure
                    else CollectionWorker.Connects) 2)
    as (_ & Hconnects & _).
  - vm_compute. lia.
  - intros i Hi. destruct (Nat.ltb_spec i 2); [reflexivity|lia].
  - apply Hconnects. reflexivity.
Defined.

Lemma verification_indices_in_bounds_witness :
  length (CdcWorker.verification_indices 25) = 10%nat.
Proof.
  destruct (verification_indices_in_bounds 25) as (Hlen & _).
  - lia.
  - exact Hlen.
Defined.

Lemma status_ok_only_for_empty_source_witness :
  Verify.status
    (Verify.verify_collection "X" (Ok ["X"]) (Ok (0, 0)) (Ok ∅) (Ok ∅)
       (Verify.verify_document_sample ∅ target6 100)) = Some "OK"
  ∧ (∅ : collection) = ∅.
Proof.
  assert (Verify.status
            (Verify.verify_collection "X" (Ok ["X"]) (Ok (0, 0)) (Ok ∅)
               (Ok ∅) (Verify.verify_document_sample ∅ target6 100))
          = Some "OK") as Hok by (vm_compute; reflexivity).
  split; [exact Hok|].
  exact (status_ok_only_for_empty_source "X" (Ok ["X"]) (Ok (0, 0)) (Ok ∅)
           (Ok ∅) ∅ target6 Hok).
Defined.

Lemma sample_positions_in_bounds_witness :
  length (Verify.sample_positions 25 10) = 10%nat.
Proof.
  destruct (sample_positions_in_bounds 25 10) as (Hlen & _).
  - lia.
  - exact Hlen.
Defined.

Lemma targeted_check_overwrites_witness :
  ∃ tgt' σ' n,
    CdcWorker.targeted_check (collection_of [older]) (collection_of [newer])
      polled "X" PROGRESS_DIR "now" = Ok (tgt', σ', n)
    ∧ tgt' !! 1%N = Some (fields older).
Proof.
  assert (∃ out,
            CdcWorker.targeted_check (collection_of [older])
              (collection_of [newer]) polled "X" PROGRESS_DIR "now" = Ok out)
    as [[[tgt' σ'] n] Hrun].
  { eexists. vm_compute. reflexivity. }
  exists tgt', σ', n. split; [exact Hrun|].
  destruct (targeted_check_overwrites _ _ _ _ _ _ _ _ _ Hrun)
    as (_ & Hover & _).
  eapply (Hover newer older).
  - vm_compute; left.
  - vm_compute; reflexivity.
  - vm_compute; reflexivity.
  - vm_compute; reflexivity.
  - vm_compute; discriminate.
Defined.

Lemma resume_needs_object_id_witness :
  CollectionWorker.migrate_collection 5 (λ _, VNone) source10 ∅
    {[ CollectionWorker.checkpoint_path "X"
       := Text (JObject {[ "last_id" := VStr "xyz" ]}) ]} "X"
  = Some (Raise InvalidId).
Proof.
  destruct (resume_needs_object_id
              {[ CollectionWorker.checkpoint_path "X"
                 := Text (JObject {[ "last_id" := VStr "xyz" ]}) ]}
              "X" {[ "last_id" := VStr "xyz" ]} "xyz") as [Hbad _].
  - reflexivity.
  - reflexivity.
  - apply Hbad; [discriminate|]. vm_compute. discriminate.
Defined.

Lemma deletes_uncounted_witness :
  (CdcWorker.handle_deletes target6 source10
     {[ CdcWorker.checkpoint_path PROGRESS_DIR "X" := Garbage "{" ]} "X"
     VNone false "now").2 = 4%nat.
Proof.
  destruct (deletes_uncounted_on_unreadable_checkpoint target6 source10
              {[ CdcWorker.checkpoint_path PROGRESS_DIR "X" := Garbage "{" ]}
              "X" "now" VNone false (Garbage "{"))
    as (_ & Hcount & _).
  - reflexivity.
  - intros m. discriminate.
  - rewrite Hcount. vm_compute. reflexivity.
Defined.
End MoreWitnesses.
